(** * go-bcr: the registry abstraction layer

    A shallow embedding of the Go package [bcr] (types.go, errors.go,
    client.go, file.go) and the properties of its version resolver, error
    predicates, resource cache, remote client and local-tree backend.

    Conventions of the embedding:
    - a Go [string] is a [string] (a sequence of bytes), [[]byte] is a
      [string] as well;
    - a pointer receiver that the code compares with [nil] is an [option];
    - a Go map that the code compares with [nil] is an [option (gmap _ _)];
    - [(T, error)] results are sums [error + T], with [inl] the failure;
    - code that touches the file system, the clock or the network threads a
      [World] explicitly. *)

From Stdlib Require Import ZArith Ascii.
From stdpp Require Import gmap strings list sorting.

Local Open Scope Z_scope.

(** ** Go's [strings] package, as far as the code uses it *)

(** [strings.HasPrefix(s, prefix)]. *)
Definition strings_HasPrefix (s pre : string) : bool := String.prefix pre s.

(** [strings.TrimPrefix(s, prefix)]: [s] without the leading [prefix], or
    [s] itself when it does not start with it. *)
Fixpoint drop_bytes (n : nat) (s : string) : string :=
  match n, s with
  | O, _ => s
  | S n', String _ s' => drop_bytes n' s'
  | S _, EmptyString => EmptyString
  end.

Definition strings_TrimPrefix (s pre : string) : string :=
  if strings_HasPrefix s pre then drop_bytes (String.length pre) s else s.

(** [strings.Contains(s, substr)]: [substr] occurs somewhere within [s]. *)
Fixpoint strings_Contains (s substr : string) : bool :=
  String.prefix substr s ||
  match s with
  | EmptyString => false
  | String _ s' => strings_Contains s' substr
  end.

(** [s[i]], the byte at index [i], when [i < len(s)]. *)
Definition byte_at (s : string) (i : nat) : option ascii := String.get i s.

(** ** types.go *)

Record Maintainer := {
  Name : string;
  Email : string;
  GitHub : string;
  GitHubID : Z
}.

Record Metadata := {
  Versions : list string;
  YankedVersions : option (gmap string string);
  Maintainers : list Maintainer;
  Homepage : string;
  Repository : list string
}.

(** The zero value [Metadata{}]. *)
Definition empty_Metadata : Metadata :=
  {| Versions := []; YankedVersions := None; Maintainers := [];
     Homepage := ""; Repository := [] |}.

(** [func (m *Metadata) IsYanked(version string) bool] *)
Definition IsYanked (m : option Metadata) (version : string) : bool :=
  match m with
  | None => false
  | Some m =>
      match YankedVersions m with
      | None => false
      | Some yv => match yv !! version with Some _ => true | None => false end
      end
  end.

(** [func (m *Metadata) YankReason(version string) string] *)
Definition YankReason (m : option Metadata) (version : string) : string :=
  match m with
  | None => ""
  | Some m =>
      match YankedVersions m with
      | None => ""
      | Some yv => default "" (yv !! version)
      end
  end.

(** [for i := len(vs) - 1; i >= 0; i-- { v := vs[i]; body }], where the body
    either returns ([Some r]) or falls through to the next iteration
    ([None]).  The counter [n] is [i + 1]; the loop result is [None] when
    the loop runs to its end.  The index is always in range when [n] starts
    at [len(vs)]. *)
Fixpoint for_down (body : string → option string) (vs : list string) (n : nat)
  : option string :=
  match n with
  | O => None
  | S i =>
      match vs !! i with
      | Some v =>
          match body v with
          | Some r => Some r
          | None => for_down body vs i
          end
      | None => None
      end
  end.

(** [func (m *Metadata) Latest() string] *)
Definition Latest (m : option Metadata) : string :=
  match m with
  | None => ""
  | Some md =>
      if (length (Versions md) =? 0)%nat then ""
      else
        match for_down (λ v, if negb (IsYanked m v) then Some v else None)
                       (Versions md) (length (Versions md)) with
        | Some v => v
        | None => ""
        end
  end.

Definition prereleaseIndicators : list string :=
  ["-rc"; "-alpha"; "-beta"; "-dev"; "-pre"].

(** [func IsPrerelease(version string) bool] *)
Fixpoint any_indicator (version : string) (indicators : list string) : bool :=
  match indicators with
  | [] => false
  | indicator :: rest =>
      if strings_Contains version indicator then true
      else any_indicator version rest
  end.

Definition IsPrerelease (version : string) : bool :=
  any_indicator version prereleaseIndicators.

(** [func (m *Metadata) LatestStable() string] *)
Definition LatestStable (m : option Metadata) : string :=
  match m with
  | None => ""
  | Some md =>
      if (length (Versions md) =? 0)%nat then ""
      else
        match for_down (λ v, if IsYanked m v then None
                             else if negb (IsPrerelease v) then Some v
                             else None)
                       (Versions md) (length (Versions md)) with
        | Some v => v
        | None =>
            match for_down (λ v, if negb (IsYanked m v) then Some v else None)
                           (Versions md) (length (Versions md)) with
            | Some v => v
            | None => ""
            end
        end
  end.

(** [func (m *Metadata) HasVersion(version string) bool] *)
Fixpoint range_has (version : string) (vs : list string) : bool :=
  match vs with
  | [] => false
  | v :: rest => if String.eqb v version then true else range_has version rest
  end.

Definition HasVersion (m : option Metadata) (version : string) : bool :=
  match m with
  | None => false
  | Some m => range_has version (Versions m)
  end.

(** [func (s *Source) SourceType() string] *)
Record Source := {
  Type_ : string;
  URL : string;
  Integrity : string;
  StripPrefix : string;
  Patches : option (gmap string string);
  PatchStrip : Z;
  ArchiveType : string;
  Remote : string;
  Commit : string;
  ShallowSince : string;
  Path : string
}.

Definition SourceType (s : option Source) : string :=
  match s with
  | None => "archive"
  | Some s => if String.eqb (Type_ s) "" then "archive" else Type_ s
  end.

(** ** errors.go *)

Record NotFoundError := {
  NF_Module : string;
  NF_Version : string;
  NF_StatusCode : Z
}.

(** The package-level error variables made with [errors.New]; each is one
    pointer, so a sentinel is known by which variable it is. *)
Inductive sentinel := var_ErrNotFound | var_ErrListingNotSupported.

(** The dynamic values of Go's [error] interface that reach this package
    (the [nil] interface is [None] of [option error]):
    - [SentinelErr v]: the value of the package-level variable [v];
    - [*NotFoundError] and [*RequestError], the package's own structs
      ([RequestError.Err] may be [nil]);
    - [WrapErr fmt inner]: any error with an [Unwrap() error] method that
      returns the non-nil [inner], such as [fmt.Errorf(fmt, ..., inner)] with
      [%w], [*url.Error] or [*fs.PathError];
    - [LeafErr msg]: any other error without an [Unwrap] method
      ([errors.New] elsewhere, encoding/json's errors, [context.Canceled]). *)
#[warning="-register-all"]
Inductive error : Type :=
| SentinelErr (v : sentinel)
| NotFoundErr (e : NotFoundError)
| RequestErr (url : string) (StatusCode : Z) (Err : option error)
| WrapErr (fmt : string) (inner : error)
| LeafErr (msg : string).

(** [var ErrNotFound = errors.New("bcr: not found")] *)
Definition ErrNotFound : error := SentinelErr var_ErrNotFound.

(** Modelled from the spec: the declaration of [ErrListingNotSupported] is
    not among the sources, which only use it (file.go, client.go and the
    tests compare against it with [errors.Is]).  The specification describes
    ListingNotSupported as the error of a backend that has no way to
    enumerate modules, distinct from an empty list and from every other
    error kind; it is a package-level sentinel like [ErrNotFound]. *)
Definition ErrListingNotSupported : error := SentinelErr var_ErrListingNotSupported.

(** [err == target] for a sentinel target: interface values holding pointers
    are equal only when they hold the very same pointer. *)
Definition same_error (err : error) (target : sentinel) : bool :=
  match err, target with
  | SentinelErr var_ErrNotFound, var_ErrNotFound => true
  | SentinelErr var_ErrListingNotSupported, var_ErrListingNotSupported => true
  | _, _ => false
  end.

(** [func (e *NotFoundError) Is(target error) bool]:
    [target == ErrNotFound]. *)
Definition NotFoundError_Is (e : NotFoundError) (target : sentinel) : bool :=
  match target with
  | var_ErrNotFound => true
  | var_ErrListingNotSupported => false
  end.

(** [func (e *NotFoundError) Unwrap() error] and
    [func (e *RequestError) Unwrap() error], together with the [Unwrap] of
    wrapping errors of other packages: the error [Unwrap()] returns, [None]
    when it returns [nil] or the dynamic type has no such method. *)
Definition Unwrap (e : error) : option error :=
  match e with
  | NotFoundErr _ => None
  | RequestErr _ _ Err => Err
  | WrapErr _ inner => Some inner
  | SentinelErr _ | LeafErr _ => None
  end.

(** [errors.Is(err, target)] of the standard library, for a non-nil [err]
    and a sentinel target: at each link of the chain, identity first, then
    the link's own [Is] method, then [Unwrap]. *)
Fixpoint errors_Is (err : error) (target : sentinel) : bool :=
  same_error err target ||
  match err with
  | NotFoundErr e => NotFoundError_Is e target
  | RequestErr _ _ (Some inner) => errors_Is inner target
  | WrapErr _ inner => errors_Is inner target
  | _ => false
  end.

(** [func isNotFound(err error) bool] (client.go), on a non-nil error: the
    comparison with [ErrNotFound], the type assertion to [*NotFoundError],
    then the assertion to an [Unwrap() error] method... *)
Fixpoint isNotFound_nonnil (err : error) : bool :=
  if same_error err var_ErrNotFound then true
  else
    match err with
    | NotFoundErr _ => true
    | RequestErr _ _ Err =>
        match Err with
        | Some u => isNotFound_nonnil u
        | None => false
        end
    | WrapErr _ inner => isNotFound_nonnil inner
    | SentinelErr _ | LeafErr _ => false
    end.

(** ... and on any [error] value, [nil] included. *)
Definition isNotFound (err : option error) : bool :=
  match err with
  | None => false
  | Some e => isNotFound_nonnil e
  end.

(** Errors made by other packages (os, net/http, net/url, io,
    encoding/json, context): chains of wrappers over a leaf, none of them a
    value of this package. *)
Inductive foreign : Type :=
| FLeaf (msg : string)
| FWrap (msg : string) (inner : foreign).

Fixpoint of_foreign (f : foreign) : error :=
  match f with
  | FLeaf msg => LeafErr msg
  | FWrap msg inner => WrapErr msg (of_foreign inner)
  end.

(** ** The host: file system, clock, network, decoders

    The code reaches the outside through [os], [path], [path/filepath],
    [time], [net/url], [net/http] and [encoding/json].  Their behaviour is
    not part of this package, so it is an interface here: [H] is the state
    of the host (files and clock), every operation is a function of it. *)

(** [os.IsNotExist(err)] and the error chain itself. *)
Record os_error := {
  os_IsNotExist : bool;
  os_chain : foreign
}.

(** [fs.FileInfo], as far as the code reads it; instants are nanoseconds. *)
Record FileInfo := { ModTime : Z }.

(** [fs.DirEntry], as far as the code reads it. *)
Record DirEntry := {
  entry_Name : string;
  entry_IsDir : bool
}.

(** [context.Context]: [ctx.Err()] is [nil] until the context is cancelled
    or its deadline passes. *)
Record Context := { ctx_Err : option foreign }.

Definition context_Background : Context := {| ctx_Err := None |}.

(** The request [fetch] builds. *)
Record Request := {
  req_ctx : Context;
  req_URL : string;
  req_UserAgent : string;
  req_Accept : string
}.

(** What [c.http.Do(req)] and the following [io.ReadAll(resp.Body)] give. *)
Inductive http_outcome :=
| DoFailed (err : foreign)
| Responded (StatusCode : Z) (body : foreign + string).

Class Host (H : Type) := {
  os_Stat : H → string → os_error + FileInfo;
  os_ReadFile : H → string → os_error + string;
  os_ReadDir : H → string → os_error + list DirEntry;
  os_MkdirAll : H → string → H * option os_error;
  os_WriteFile : H → string → string → H * option os_error;
  time_Now : H → Z;
  path_Join : list string → string;
  filepath_Join : list string → string;
  filepath_FromSlash : string → string;
  filepath_Dir : string → string;
  url_JoinPath : string → string → foreign + string;
  http_NewRequest : Context → string → option foreign;
  http_Do : Request → http_outcome;
  json_Unmarshal_Metadata : string → foreign + Metadata;
  json_Unmarshal_Source : string → foreign + Source
}.

(** The host together with the requests handed to [http.Do] so far, oldest
    first. *)
Record World (H : Type) := mkWorld {
  host : H;
  sent : list Request
}.
Arguments mkWorld {H} _ _.
Arguments host {H} _.
Arguments sent {H} _.

(** [time.Duration] is a signed 64-bit count of nanoseconds; [t.Sub(u)]
    saturates at its bounds, and [time.Since(t)] is [time.Now().Sub(t)]. *)
Definition maxDuration : Z := 2 ^ 63 - 1.
Definition minDuration : Z := - 2 ^ 63.
Definition time_Hour : Z := 3600 * 1000000000.

Definition time_Sub (t u : Z) : Z :=
  if maxDuration <? t - u then maxDuration
  else if t - u <? minDuration then minDuration
  else t - u.

(** ** client.go: the cache *)

(** [type cache struct]; the lock [mu] is not modelled, every call is one
    step on the host. *)
Record cache := {
  dir : string;
  ttl : Z
}.

Definition newCache (dir : string) (ttl : Z) : cache :=
  {| dir := dir; ttl := if ttl =? 0 then time_Hour else ttl |}.

Section Code.
Context {H : Type} {HostOps : Host H}.

Definition time_Since (h : H) (t : Z) : Z := time_Sub (time_Now h) t.

(** [func (c *cache) path(key string) string] *)
Definition cache_path (c : cache) (key : string) : string :=
  filepath_Join [dir c; filepath_FromSlash key].

(** [func (c *cache) get(key string, checkTTL bool) ([]byte, bool)]:
    [None] is [(nil, false)], [Some data] is [(data, true)]. *)
Definition cache_get (c : cache) (h : H) (key : string) (checkTTL : bool)
  : option string :=
  let p := cache_path c key in
  match os_Stat h p with
  | inl _ => None
  | inr info =>
      if checkTTL && (ttl c <? time_Since h (ModTime info)) then None
      else
        match os_ReadFile h p with
        | inl _ => None
        | inr data => Some data
        end
  end.

(** [func (c *cache) set(key string, data []byte)] *)
Definition cache_set (c : cache) (h : H) (key data : string) : H :=
  let p := cache_path c key in
  match os_MkdirAll h (filepath_Dir p) with
  | (h1, Some _) => h1
  | (h1, None) => fst (os_WriteFile h1 p data)
  end.

(** ** client.go: the client *)

(** [type Client struct]; its [http] field is the host's [http_Do]. *)
Record Client := {
  baseURL : string;
  userAgent : string;
  c_cache : option cache
}.

(** [clientConfig] and the options of [New]; the HTTP client is part of the
    host here. *)
Record clientConfig := {
  cfg_baseURL : string;
  cfg_userAgent : string;
  cfg_cacheDir : string;
  cfg_cacheTTL : Z
}.

Definition DefaultBaseURL : string := "https://bcr.bazel.build".

(** [type Option], a function on a [*clientConfig]: an option updates the
    configuration. *)
Definition Option : Type := clientConfig → clientConfig.

Definition WithBaseURL (baseURL : string) : Option :=
  λ c, {| cfg_baseURL := baseURL; cfg_userAgent := cfg_userAgent c;
          cfg_cacheDir := cfg_cacheDir c; cfg_cacheTTL := cfg_cacheTTL c |}.

Definition WithUserAgent (ua : string) : Option :=
  λ c, {| cfg_baseURL := cfg_baseURL c; cfg_userAgent := ua;
          cfg_cacheDir := cfg_cacheDir c; cfg_cacheTTL := cfg_cacheTTL c |}.

Definition WithCacheDir (dir : string) : Option :=
  λ c, {| cfg_baseURL := cfg_baseURL c; cfg_userAgent := cfg_userAgent c;
          cfg_cacheDir := dir; cfg_cacheTTL := cfg_cacheTTL c |}.


(** [func New(opts ...Option) *Client] *)
Definition New (opts : list Option) : Client :=
  let cfg := fold_left (λ cfg opt, opt cfg) opts
               {| cfg_baseURL := DefaultBaseURL; cfg_userAgent := "go-bcr/1.0";
                  cfg_cacheDir := ""; cfg_cacheTTL := 0 |} in
  {| baseURL := cfg_baseURL cfg;
     userAgent := cfg_userAgent cfg;
     c_cache := if String.eqb (cfg_cacheDir cfg) "" then None
                else Some (newCache (cfg_cacheDir cfg) (cfg_cacheTTL cfg)) |}.

(** [func (c *Client) fetch(ctx, urlPath, module, version string) ([]byte, error)] *)
Definition fetch (c : Client) (ctx : Context) (w : World H)
    (urlPath module version : string) : World H * (error + string) :=
  match url_JoinPath (baseURL c) urlPath with
  | inl err => (w, inl (WrapErr "bcr: invalid URL: %w" (of_foreign err)))
  | inr u =>
      match http_NewRequest ctx u with
      | Some err =>
          (w, inl (WrapErr "bcr: failed to create request: %w" (of_foreign err)))
      | None =>
          let req := {| req_ctx := ctx; req_URL := u;
                        req_UserAgent := userAgent c;
                        req_Accept := "application/json" |} in
          let w' := mkWorld (host w) (sent w ++ [req]) in
          match http_Do req with
          | DoFailed err => (w', inl (RequestErr u 0 (Some (of_foreign err))))
          | Responded status body =>
              if status =? 404 then
                (w', inl (NotFoundErr {| NF_Module := module;
                                         NF_Version := version;
                                         NF_StatusCode := status |}))
              else if negb (status =? 200) then
                (w', inl (RequestErr u status None))
              else
                match body with
                | inl err =>
                    (w', inl (RequestErr u 0
                       (Some (WrapErr "failed to read response: %w"
                                      (of_foreign err)))))
                | inr data => (w', inr data)
                end
          end
      end
  end.

(** [if c.cache != nil { if data, ok := c.cache.get(urlPath, checkTTL); ok {]:
    the bytes the guarded block runs on, if it runs. *)
Definition cache_hit (c : Client) (h : H) (urlPath : string) (checkTTL : bool)
  : option string :=
  match c_cache c with
  | Some ca => cache_get ca h urlPath checkTTL
  | None => None
  end.

(** [if c.cache != nil { c.cache.set(urlPath, data) }] *)
Definition cache_store (c : Client) (w : World H) (urlPath data : string)
  : World H :=
  match c_cache c with
  | Some ca => mkWorld (cache_set ca (host w) urlPath data) (sent w)
  | None => w
  end.

(** [func (c *Client) Metadata(ctx, module string)], returning a
    [*Metadata] and an [error] *)
Definition Client_Metadata (c : Client) (ctx : Context) (w : World H)
    (module : string) : World H * (error + Metadata) :=
  let urlPath := path_Join ["modules"; module; "metadata.json"] in
  match match cache_hit c (host w) urlPath true with
        | Some data =>
            match json_Unmarshal_Metadata data with
            | inr meta => Some meta
            | inl _ => None
            end
        | None => None
        end with
  | Some meta => (w, inr meta)
  | None =>
      match fetch c ctx w urlPath module "" with
      | (w1, inl err) => (w1, inl err)
      | (w1, inr data) =>
          match json_Unmarshal_Metadata data with
          | inl err =>
              (w1, inl (WrapErr "bcr: failed to parse metadata for %s: %w"
                                (of_foreign err)))
          | inr meta => (cache_store c w1 urlPath data, inr meta)
          end
      end
  end.

(** [func (c *Client) Source(ctx, module, version string)], returning a
    [*Source] and an [error] *)
Definition Client_Source (c : Client) (ctx : Context) (w : World H)
    (module version : string) : World H * (error + Source) :=
  let urlPath := path_Join ["modules"; module; version; "source.json"] in
  match match cache_hit c (host w) urlPath false with
        | Some data =>
            match json_Unmarshal_Source data with
            | inr src => Some src
            | inl _ => None
            end
        | None => None
        end with
  | Some src => (w, inr src)
  | None =>
      match fetch c ctx w urlPath module version with
      | (w1, inl err) => (w1, inl err)
      | (w1, inr data) =>
          match json_Unmarshal_Source data with
          | inl err =>
              (w1, inl (WrapErr "bcr: failed to parse source for %s@%s: %w"
                                (of_foreign err)))
          | inr src => (cache_store c w1 urlPath data, inr src)
          end
      end
  end.

(** [func (c *Client) ModuleFile(ctx, module, version string) ([]byte, error)] *)
Definition Client_ModuleFile (c : Client) (ctx : Context) (w : World H)
    (module version : string) : World H * (error + string) :=
  let urlPath := path_Join ["modules"; module; version; "MODULE.bazel"] in
  match cache_hit c (host w) urlPath false with
  | Some data => (w, inr data)
  | None =>
      match fetch c ctx w urlPath module version with
      | (w1, inl err) => (w1, inl err)
      | (w1, inr data) => (cache_store c w1 urlPath data, inr data)
      end
  end.

(** [func (c *Client) Latest(ctx, module string) (string, error)] *)
Definition Client_Latest (c : Client) (ctx : Context) (w : World H)
    (module : string) : World H * (error + string) :=
  match Client_Metadata c ctx w module with
  | (w1, inl err) => (w1, inl err)
  | (w1, inr meta) =>
      let latest := Latest (Some meta) in
      if String.eqb latest "" then
        (w1, inl (NotFoundErr {| NF_Module := module; NF_Version := "";
                                 NF_StatusCode := 0 |}))
      else (w1, inr latest)
  end.

End Code.

(** ** file.go *)

Record FileRegistry := { root : string }.

(** [func NewFileRegistry(root string) *FileRegistry] *)
Definition NewFileRegistry (root : string) : FileRegistry := {| root := root |}.

(** [a <= b] on bytes. *)
Definition byte_le (a b : ascii) : bool := (N_of_ascii a <=? N_of_ascii b)%N.

(** [func isWindowsAbsolutePath(path string) bool] *)
Definition isWindowsAbsolutePath (path : string) : bool :=
  if (String.length path <? 3)%nat then false
  else
    match byte_at path 0, byte_at path 1, byte_at path 2 with
    | Some letter, Some colon, Some sep =>
        if negb ((byte_le "A" letter && byte_le letter "Z")
                 || (byte_le "a" letter && byte_le letter "z")) then false
        else if negb (Ascii.eqb colon ":") then false
        else Ascii.eqb sep "\" || Ascii.eqb sep "/"
    | _, _, _ => false
    end.

(** [func NewFileRegistryFromURL(url string)], returning a [*FileRegistry]
    and a [bool]: [None] is [(nil, false)], [Some r] is [(r, true)]. *)
Definition NewFileRegistryFromURL (url : string) : option FileRegistry :=
  if strings_HasPrefix url "file://" then
    let path := strings_TrimPrefix url "file://" in
    Some (NewFileRegistry path)
  else if strings_HasPrefix url "/" then Some (NewFileRegistry url)
  else if isWindowsAbsolutePath url then Some (NewFileRegistry url)
  else None.

Section FileCode.
Context {H : Type} {HostOps : Host H}.

(** The [for _, entry := range entries] loop of [ListModules]. *)
Fixpoint range_entries (h : H) (modulesDir : string) (entries : list DirEntry)
  : list string :=
  match entries with
  | [] => []
  | entry :: rest =>
      if entry_IsDir entry then
        let metaPath :=
          filepath_Join [modulesDir; entry_Name entry; "metadata.json"] in
        match os_Stat h metaPath with
        | inr _ => entry_Name entry :: range_entries h modulesDir rest
        | inl _ => range_entries h modulesDir rest
        end
      else range_entries h modulesDir rest
  end.

(** [func (r *FileRegistry) ListModules(ctx context.Context) ([]string, error)] *)
Definition ListModules (r : FileRegistry) (ctx : Context) (h : H)
  : error + list string :=
  match ctx_Err ctx with
  | Some err => inl (of_foreign err)
  | None =>
      let modulesDir := filepath_Join [root r; "modules"] in
      match os_ReadDir h modulesDir with
      | inl err =>
          if os_IsNotExist err then inl ErrListingNotSupported
          else inl (WrapErr "bcr: failed to list modules: %w"
                            (of_foreign (os_chain err)))
      | inr entries => inr (range_entries h modulesDir entries)
      end
  end.

End FileCode.

(** ** client.go and file.go: the remaining operations *)

(** [json.Unmarshal(data, &modules)] for a [[]string], the decoder of
    [Client.ListModules]. *)
Class IndexDecoder := {
  json_Unmarshal_strings : string → foreign + list string
}.

Section MoreCode.
Context {H : Type} {HostOps : Host H}.

(** [func (c *Client) Exists(ctx, module string) (bool, error)] *)
Definition Client_Exists (c : Client) (ctx : Context) (w : World H)
    (module : string) : World H * (error + bool) :=
  match Client_Metadata c ctx w module with
  | (w1, inl err) =>
      if isNotFound (Some err) then (w1, inr false) else (w1, inl err)
  | (w1, inr _) => (w1, inr true)
  end.

(** [func (c *Client) VersionExists(ctx, module, version string) (bool, error)] *)
Definition Client_VersionExists (c : Client) (ctx : Context) (w : World H)
    (module version : string) : World H * (error + bool) :=
  match Client_Metadata c ctx w module with
  | (w1, inl err) =>
      if isNotFound (Some err) then (w1, inr false) else (w1, inl err)
  | (w1, inr meta) => (w1, inr (HasVersion (Some meta) version))
  end.

(** [func (c *Client) ListModules(ctx) ([]string, error)] *)
Definition Client_ListModules {Decoder : IndexDecoder} (c : Client) (ctx : Context)
    (w : World H) : World H * (error + list string) :=
  let urlPath := path_Join ["modules"; "index.json"] in
  match fetch c ctx w urlPath "" "" with
  | (w1, inl err) =>
      if isNotFound (Some err) then (w1, inl ErrListingNotSupported)
      else (w1, inl err)
  | (w1, inr data) =>
      match json_Unmarshal_strings data with
      | inl err =>
          (w1, inl (WrapErr "bcr: failed to parse module index: %w"
                            (of_foreign err)))
      | inr modules => (w1, inr modules)
      end
  end.

(** [for _, v := range vs { if !yield(v, nil) { return } }]: the consumer
    [yield] is a step on its own state [A] that answers whether to go on. *)
Fixpoint range_yield {A : Type} (yield : A → string → option error → A * bool)
    (vs : list string) (a : A) : A :=
  match vs with
  | [] => a
  | v :: rest =>
      match yield a v None with
      | (a', true) => range_yield yield rest a'
      | (a', false) => a'
      end
  end.

(** [func (c *Client) Versions(ctx, module string) iter.Seq2[string, error]]:
    the returned sequence, run once against a consumer. *)
Definition Client_Versions {A : Type} (c : Client) (ctx : Context)
    (module : string) (yield : A → string → option error → A * bool)
    (w : World H) (a : A) : World H * A :=
  match Client_Metadata c ctx w module with
  | (w1, inl err) => (w1, fst (yield a "" (Some err)))
  | (w1, inr meta) => (w1, range_yield yield (Versions meta) a)
  end.

(** [func (r *FileRegistry) Metadata(ctx, module string)], returning a
    [*Metadata] and an [error] *)
Definition FileRegistry_Metadata (r : FileRegistry) (ctx : Context) (h : H)
    (module : string) : error + Metadata :=
  match ctx_Err ctx with
  | Some err => inl (of_foreign err)
  | None =>
      let path := filepath_Join [root r; "modules"; module; "metadata.json"] in
      match os_ReadFile h path with
      | inl err =>
          if os_IsNotExist err then
            inl (NotFoundErr {| NF_Module := module; NF_Version := "";
                                NF_StatusCode := 0 |})
          else inl (WrapErr "bcr: failed to read metadata for %s: %w"
                            (of_foreign (os_chain err)))
      | inr data =>
          match json_Unmarshal_Metadata data with
          | inl err =>
              inl (WrapErr "bcr: failed to parse metadata for %s: %w"
                           (of_foreign err))
          | inr meta => inr meta
          end
      end
  end.

(** [func (r *FileRegistry) Source(ctx, module, version string)], returning
    a [*Source] and an [error] *)
Definition FileRegistry_Source (r : FileRegistry) (ctx : Context) (h : H)
    (module version : string) : error + Source :=
  match ctx_Err ctx with
  | Some err => inl (of_foreign err)
  | None =>
      let path :=
        filepath_Join [root r; "modules"; module; version; "source.json"] in
      match os_ReadFile h path with
      | inl err =>
          if os_IsNotExist err then
            inl (NotFoundErr {| NF_Module := module; NF_Version := version;
                                NF_StatusCode := 0 |})
          else inl (WrapErr "bcr: failed to read source for %s@%s: %w"
                            (of_foreign (os_chain err)))
      | inr data =>
          match json_Unmarshal_Source data with
          | inl err =>
              inl (WrapErr "bcr: failed to parse source for %s@%s: %w"
                           (of_foreign err))
          | inr src => inr src
          end
      end
  end.

(** [func (r *FileRegistry) ModuleFile(ctx, module, version string) ([]byte, error)] *)
Definition FileRegistry_ModuleFile (r : FileRegistry) (ctx : Context) (h : H)
    (module version : string) : error + string :=
  match ctx_Err ctx with
  | Some err => inl (of_foreign err)
  | None =>
      let path :=
        filepath_Join [root r; "modules"; module; version; "MODULE.bazel"] in
      match os_ReadFile h path with
      | inl err =>
          if os_IsNotExist err then
            inl (NotFoundErr {| NF_Module := module; NF_Version := version;
                                NF_StatusCode := 0 |})
          else inl (WrapErr "bcr: failed to read MODULE.bazel for %s@%s: %w"
                            (of_foreign (os_chain err)))
      | inr data => inr data
      end
  end.

End MoreCode.

(** [func (r *FileRegistry) String() string] *)
Definition FileRegistry_String (r : FileRegistry) : string :=
  "file://" +:+ root r.

(** ** An in-memory host

    A small host to run the code on: files and directories in a finite map
    from slash-separated paths, a clock, a fixed server, and decoders given
    by the caller.  Paths and URLs are joined with single slashes; no
    cleaning is done (as [filepath.Join] and [url.JoinPath] would), so it is
    meant for clean, non-empty components. *)
Module MemHost.

Inductive node :=
| FileNode (data : string) (mtime : Z)
| DirNode (mtime : Z).

Definition node_mtime (n : node) : Z :=
  match n with FileNode _ t => t | DirNode t => t end.

Definition node_is_dir (n : node) : bool :=
  match n with FileNode _ _ => false | DirNode _ => true end.

Record state := {
  files : gmap string node;
  clock : Z
}.

Definition ENOENT : os_error :=
  {| os_IsNotExist := true; os_chain := FWrap "open" (FLeaf "no such file or directory") |}.
Definition ENOTDIR : os_error :=
  {| os_IsNotExist := false; os_chain := FWrap "open" (FLeaf "not a directory") |}.
Definition EISDIR : os_error :=
  {| os_IsNotExist := false; os_chain := FWrap "read" (FLeaf "is a directory") |}.

(** [s = d ++ "/" ++ b] with no slash in [b]. *)
Fixpoint split_last_slash (s : string) : option (string * string) :=
  match s with
  | EmptyString => None
  | String c s' =>
      match split_last_slash s' with
      | Some (d, b) => Some (String c d, b)
      | None => if Ascii.eqb c "/" then Some (EmptyString, s') else None
      end
  end.

Definition parent (p : string) : string :=
  match split_last_slash p with
  | Some (EmptyString, _) => "/"
  | Some (d, _) => d
  | None => "."
  end.

Fixpoint join (parts : list string) : string :=
  match parts with
  | [] => ""
  | [x] => x
  | x :: rest => x +:+ "/" +:+ join rest
  end.

(** Some proper ancestor of [p] is a regular file: every operation on [p]
    then fails with "not a directory", which is not a not-exist error. *)
Fixpoint below_file (fuel : nat) (fs : gmap string node) (p : string) : bool :=
  match fuel with
  | O => false
  | S fuel' =>
      if String.eqb (parent p) p || String.eqb (parent p) "." then false
      else
        match fs !! parent p with
        | Some (FileNode _ _) => true
        | _ => below_file fuel' fs (parent p)
        end
  end.

Definition blocked (h : state) (p : string) : bool :=
  below_file (String.length p) (files h) p.

Definition stat (h : state) (p : string) : os_error + FileInfo :=
  if blocked h p then inl ENOTDIR
  else
    match files h !! p with
    | Some n => inr {| ModTime := node_mtime n |}
    | None => inl ENOENT
    end.

Definition read_file (h : state) (p : string) : os_error + string :=
  if blocked h p then inl ENOTDIR
  else
    match files h !! p with
    | Some (FileNode data _) => inr data
    | Some (DirNode _) => inl EISDIR
    | None => inl ENOENT
    end.

(** Directory entries compare by name, byte-wise, as [os.ReadDir] sorts
    them. *)
Definition name_le (e1 e2 : DirEntry) : Prop :=
  String.leb (entry_Name e1) (entry_Name e2) = true.

#[local] Instance name_le_dec (e1 e2 : DirEntry) : Decision (name_le e1 e2) :=
  bool_eq_dec _ _.

Definition read_dir (h : state) (p : string) : os_error + list DirEntry :=
  if blocked h p then inl ENOTDIR
  else
    match files h !! p with
    | Some (DirNode _) =>
        inr (merge_sort name_le
               (omap (λ '(q, n),
                      match split_last_slash q with
                      | Some (d, b) =>
                          if String.eqb d p && negb (String.eqb b "")
                          then Some {| entry_Name := b;
                                       entry_IsDir := node_is_dir n |}
                          else None
                      | None => None
                      end)
                     (map_to_list (files h))))
    | Some (FileNode _ _) => inl ENOTDIR
    | None => inl ENOENT
    end.

Fixpoint mkdir_all_aux (fuel : nat) (h : state) (p : string)
  : state * option os_error :=
  match files h !! p with
  | Some (DirNode _) => (h, None)
  | Some (FileNode _ _) => (h, Some ENOTDIR)
  | None =>
      let make h' := {| files := <[p := DirNode (clock h')]> (files h');
                        clock := clock h' |} in
      match fuel with
      | O => (make h, None)
      | S fuel' =>
          if String.eqb (parent p) p || String.eqb (parent p) "." then (make h, None)
          else
            match mkdir_all_aux fuel' h (parent p) with
            | (h1, Some e) => (h1, Some e)
            | (h1, None) => (make h1, None)
            end
      end
  end.

Definition mkdir_all (h : state) (p : string) : state * option os_error :=
  mkdir_all_aux (String.length p) h p.

Definition write_file (h : state) (p data : string) : state * option os_error :=
  if blocked h p then (h, Some ENOTDIR)
  else
    match files h !! p with
    | Some (DirNode _) => (h, Some EISDIR)
    | _ =>
        match files h !! parent p with
        | Some (DirNode _) =>
            ({| files := <[p := FileNode data (clock h)]> (files h);
                clock := clock h |}, None)
        | Some (FileNode _ _) => (h, Some ENOTDIR)
        | None => (h, Some ENOENT)
        end
    end.

Definition do (server : string → http_outcome) (req : Request) : http_outcome :=
  match ctx_Err (req_ctx req) with
  | Some err => DoFailed (FWrap "Get" err)
  | None => server (req_URL req)
  end.

#[local] Instance mem_host (server : string → http_outcome)
    (decode_meta : string → foreign + Metadata)
    (decode_src : string → foreign + Source) : Host state := {|
  os_Stat := stat;
  os_ReadFile := read_file;
  os_ReadDir := read_dir;
  os_MkdirAll := mkdir_all;
  os_WriteFile := write_file;
  time_Now := clock;
  path_Join := join;
  filepath_Join := join;
  filepath_FromSlash := λ p, p;
  filepath_Dir := parent;
  url_JoinPath := λ base p, inr (base +:+ "/" +:+ p);
  http_NewRequest := λ _ _, None;
  http_Do := do server;
  json_Unmarshal_Metadata := decode_meta;
  json_Unmarshal_Source := decode_src
|}.

End MemHost.

(** ** Vocabulary of the statements *)

(** [v] is the last element of [vs] that satisfies [P]. *)
Definition last_such (P : string → Prop) (vs : list string) (v : string) : Prop :=
  ∃ l1 l2, vs = l1 ++ v :: l2 ∧ P v ∧ Forall (λ x, ¬ P x) l2.

(** A version that is neither yanked nor a prerelease. *)
Definition stable (m : option Metadata) (v : string) : Prop :=
  IsYanked m v = false ∧ IsPrerelease v = false.

(** The chain of [Unwrap] calls from [err] reaches [ErrNotFound] or a
    [*NotFoundError] (possibly at [err] itself). *)
Inductive reaches_not_found : error → Prop :=
| reach_ErrNotFound : reaches_not_found (SentinelErr var_ErrNotFound)
| reach_NotFoundError e : reaches_not_found (NotFoundErr e)
| reach_Unwrap err u :
    Unwrap err = Some u → reaches_not_found u → reaches_not_found err.

(** An ASCII letter, upper or lower case. *)
Definition drive_letter (c : ascii) : Prop :=
  (65 ≤ N_of_ascii c ≤ 90 ∨ 97 ≤ N_of_ascii c ≤ 122)%N.

Section Vocabulary.
Context {H : Type} {HostOps : Host H}.

(** What the cache lookup at the head of [Client.Metadata] and of
    [Client.Source] answers with: the decoded entry, if the guarded block
    returns. *)
Definition Metadata_cached (c : Client) (h : H) (key : string) : option Metadata :=
  match cache_hit c h key true with
  | Some data =>
      match json_Unmarshal_Metadata data with
      | inr meta => Some meta
      | inl _ => None
      end
  | None => None
  end.

Definition Source_cached (c : Client) (h : H) (key : string) : option Source :=
  match cache_hit c h key false with
  | Some data =>
      match json_Unmarshal_Source data with
      | inr src => Some src
      | inl _ => None
      end
  | None => None
  end.

(** An entry of [modules/] that [ListModules] keeps: a directory in which
    [metadata.json] can be stat'ed. *)
Definition is_module (h : H) (modulesDir : string) (e : DirEntry) : bool :=
  entry_IsDir e &&
  match os_Stat h (filepath_Join [modulesDir; entry_Name e; "metadata.json"]) with
  | inr _ => true
  | inl _ => false
  end.

End Vocabulary.

(** ** Scenarios on the in-memory host *)

Module Scenario.
Import MemHost.

(** A registry that serves the empty document for module [m], a page that
    is not JSON for module [bad], a server fault for module [boom], and 404
    for everything else. *)
Definition server (u : string) : http_outcome :=
  if String.eqb u "https://registry.test/modules/m/metadata.json"
  then Responded 200 (inr "{}")
  else if String.eqb u "https://registry.test/modules/bad/metadata.json"
  then Responded 200 (inr "<html>")
  else if String.eqb u "https://registry.test/modules/boom/metadata.json"
  then Responded 500 (inr "")
  else Responded 404 (inr "").

(** Decoders that know the empty document only: "{}" decodes to the zero
    value, as with [json.Unmarshal]; the scenarios use no other document
    that decodes. *)
Definition decode_meta (data : string) : foreign + Metadata :=
  if String.eqb data "{}" then inr empty_Metadata
  else inl (FLeaf "invalid character").

Definition decode_src (data : string) : foreign + Source :=
  if String.eqb data "{}" then
    inr {| Type_ := ""; URL := ""; Integrity := ""; StripPrefix := "";
           Patches := None; PatchStrip := 0; ArchiveType := ""; Remote := "";
           Commit := ""; ShallowSince := ""; Path := "" |}
  else inl (FLeaf "invalid character").

Definition ops : Host state := mem_host server decode_meta decode_src.

Definition client : Client :=
  New [WithBaseURL "https://registry.test"; WithCacheDir "/cache"].

(** An empty cache directory. *)
Definition empty_cache : state :=
  {| files := {[ "/cache" := DirNode 0 ]}; clock := 0 |}.

(** A cache whose entry for [m] was written two hours ago. *)
Definition old_cache : state :=
  {| files := {[ "/cache" := DirNode 0;
                 "/cache/modules" := DirNode 0;
                 "/cache/modules/m" := DirNode 0;
                 "/cache/modules/m/metadata.json" := FileNode "{}" 0;
                 "/cache/modules/m/1.0.0" := DirNode 0;
                 "/cache/modules/m/1.0.0/source.json" := FileNode "{}" 0 ]};
     clock := 2 * time_Hour |}.

(** A mirror with a module [b], a directory [a] without metadata and a
    stray file [c]; [/bare] has an empty [modules] directory. *)
Definition mirror : state :=
  {| files := {[ "/r" := DirNode 0;
                 "/r/modules" := DirNode 0;
                 "/r/modules/a" := DirNode 0;
                 "/r/modules/b" := DirNode 0;
                 "/r/modules/b/metadata.json" := FileNode "{}" 0;
                 "/r/modules/c" := FileNode "{}" 0;
                 "/bare" := DirNode 0;
                 "/bare/modules" := DirNode 0 ]};
     clock := 0 |}.

End Scenario.

(** ** Vocabulary of the further statements *)

(** The Metadata [m] after one more version is listed at the end, with the
    yank map as it was. *)
Definition with_version (m : Metadata) (v : string) : Metadata :=
  {| Versions := Versions m ++ [v];
     YankedVersions := YankedVersions m;
     Maintainers := Maintainers m;
     Homepage := Homepage m;
     Repository := Repository m |}.

(** The request [fetch] hands to [http.Do] for the joined URL [u]. *)
Definition request_of (c : Client) (ctx : Context) (u : string) : Request :=
  {| req_ctx := ctx; req_URL := u; req_UserAgent := userAgent c;
     req_Accept := "application/json" |}.

(** The client [c] without its cache. *)
Definition without_cache (c : Client) : Client :=
  {| baseURL := baseURL c; userAgent := userAgent c; c_cache := None |}.

(** The error of a result, [nil] on success. *)
Definition error_of {A : Type} (r : error + A) : option error :=
  match r with
  | inl err => Some err
  | inr _ => None
  end.

(** A consumer of [Client.Versions] that records every pair it is given and
    stops after the first version on which [stop] holds. *)
Definition collect_until (stop : string → bool)
    (seen : list (string * option error)) (v : string) (e : option error)
  : list (string * option error) * bool :=
  (seen ++ [(v, e)], negb (stop v)).

(** The elements of [vs] up to and including the first on which [stop]
    holds. *)
Fixpoint upto (stop : string → bool) (vs : list string) : list string :=
  match vs with
  | [] => []
  | v :: rest => v :: (if stop v then [] else upto stop rest)
  end.

(** A decoder of module indexes for the scenarios: it knows the empty
    array only. *)
Definition empty_index_decoder : IndexDecoder :=
  {| json_Unmarshal_strings := λ data,
       if String.eqb data "[]" then inr []
       else inl (FLeaf "invalid character") |}.

(** The Metadata [m] after version [v] is yanked for [reason]: the yank map
    gets (or replaces) the entry of [v], the version list stays. *)
Definition with_yank (m : Metadata) (v reason : string) : Metadata :=
  {| Versions := Versions m;
     YankedVersions := Some (<[v := reason]> (default ∅ (YankedVersions m)));
     Maintainers := Maintainers m;
     Homepage := Homepage m;
     Repository := Repository m |}.

(** A root whose [modules] is a regular file: there is no [modules]
    directory, yet the path exists. *)
Definition modules_is_a_file : MemHost.state :=
  {| MemHost.files := {[ "/x" := MemHost.DirNode 0;
                         "/x/modules" := MemHost.FileNode "" 0 ]};
     MemHost.clock := 0 |}.

(** * Properties *)

(** ** Strings *)

Lemma append_String (c : ascii) (a b : string) :
  String c a +:+ b = String c (a +:+ b).
Proof. reflexivity. Qed.

Lemma append_Empty (b : string) : "" +:+ b = b.
Proof. reflexivity. Qed.

Lemma prefix_spec (p s : string) :
  String.prefix p s = true ↔ ∃ r, s = p +:+ r.
Proof.
  revert s. induction p as [|a p IH]; intros s.
  - destruct s; simpl; split; eauto.
  - destruct s as [|b s]; simpl.
    + split; [discriminate | intros [r Hr]; discriminate].
    + destruct (ascii_dec a b) as [->|Hne].
      * rewrite IH. split; intros [r Hr]; exists r;
          rewrite append_String in *; congruence.
      * split; [discriminate|].
        intros [r Hr]. rewrite append_String in Hr. congruence.
Qed.

Lemma strings_Contains_spec (s sub : string) :
  strings_Contains s sub = true ↔ ∃ a b, s = a +:+ sub +:+ b.
Proof.
  induction s as [|c s IH].
  - cbn [strings_Contains]. rewrite orb_false_r, prefix_spec. split.
    + intros [r Hr]. exists "", r. exact Hr.
    + intros [a [b Hab]]. destruct a; [eauto | discriminate].
  - cbn [strings_Contains]. rewrite orb_true_iff, prefix_spec, IH. split.
    + intros [[r Hr] | [a [b Hab]]].
      * exists "", r. exact Hr.
      * exists (String c a), b. rewrite append_String. congruence.
    + intros [a [b Hab]]. destruct a as [|c' a].
      * left. eauto.
      * right. exists a, b. rewrite append_String in Hab. congruence.
Qed.

Lemma any_indicator_spec (version : string) (indicators : list string) :
  any_indicator version indicators = true ↔
  ∃ indicator, In indicator indicators ∧ strings_Contains version indicator = true.
Proof.
  induction indicators as [|i rest IH]; simpl.
  - split; [discriminate | intros [? [[] _]]].
  - destruct (strings_Contains version i) eqn:Hc.
    + split; eauto.
    + rewrite IH. split.
      * intros [j [Hj Hcj]]. eauto.
      * intros [j [[<- | Hj] Hcj]]; [congruence | eauto].
Qed.

(** ** The newest-first scan *)

Lemma for_down_app (body : string → option string) (l l' : list string) (n : nat) :
  (n ≤ length l)%nat → for_down body (l ++ l') n = for_down body l n.
Proof.
  induction n as [|i IH]; intros Hn; [reflexivity|].
  cbn [for_down]. rewrite lookup_app_l by lia. rewrite IH by lia. reflexivity.
Qed.

Lemma for_down_snoc (body : string → option string) (l : list string) (x : string) :
  for_down body (l ++ [x]) (length (l ++ [x])) =
  match body x with
  | Some r => Some r
  | None => for_down body l (length l)
  end.
Proof.
  rewrite length_app. cbn [length]. rewrite Nat.add_1_r. cbn [for_down].
  rewrite list_lookup_middle by reflexivity.
  rewrite for_down_app by lia. reflexivity.
Qed.

Lemma for_down_found (body : string → option string) (l1 l2 : list string) (v r : string) :
  body v = Some r → Forall (λ x, body x = None) l2 →
  for_down body (l1 ++ v :: l2) (length (l1 ++ v :: l2)) = Some r.
Proof.
  intros Hv. induction l2 as [|x l2 IH] using rev_ind; intros Hall.
  - rewrite for_down_snoc, Hv. reflexivity.
  - rewrite Forall_app, Forall_singleton in Hall. destruct Hall as [Hall Hx].
    replace (l1 ++ v :: l2 ++ [x]) with ((l1 ++ v :: l2) ++ [x])
      by (rewrite <- app_assoc; reflexivity).
    rewrite for_down_snoc, Hx. auto.
Qed.

Lemma for_down_total (body : string → option string) (vs : list string) :
  (∃ l1 v l2 r, vs = l1 ++ v :: l2 ∧ body v = Some r
                ∧ Forall (λ x, body x = None) l2
                ∧ for_down body vs (length vs) = Some r)
  ∨ (Forall (λ x, body x = None) vs ∧ for_down body vs (length vs) = None).
Proof.
  induction vs as [|x vs IH] using rev_ind.
  - right. split; [constructor | reflexivity].
  - rewrite for_down_snoc. destruct (body x) as [r|] eqn:Hx.
    + left. exists vs, x, [], r. repeat split; auto.
    + destruct IH as [(l1 & v & l2 & r & -> & Hv & Hall & Hres) | [Hall Hres]].
      * left. exists l1, v, (l2 ++ [x]), r. repeat split; auto.
        -- rewrite <- app_assoc. reflexivity.
        -- apply Forall_app. split; [exact Hall | apply Forall_singleton, Hx].
      * right. split; [|exact Hres].
        apply Forall_app. split; [exact Hall | apply Forall_singleton, Hx].
Qed.

Lemma for_down_none (body : string → option string) (vs : list string) :
  Forall (λ x, body x = None) vs → for_down body vs (length vs) = None.
Proof.
  intros Hall.
  destruct (for_down_total body vs)
    as [(l1 & v & l2 & r & -> & Hv & _ & _) | [_ Hres]]; [|exact Hres].
  rewrite Forall_app, Forall_cons in Hall. destruct Hall as (_ & Hnone & _).
  congruence.
Qed.

(** ** Version resolver *)

(** The body of the loop of [Latest], also the second loop of
    [LatestStable]. *)
Lemma scan_not_yanked (m : option Metadata) (vs : list string) :
  let body := λ v, if negb (IsYanked m v) then Some v else None in
  (∃ v, last_such (λ v, IsYanked m v = false) vs v
        ∧ for_down body vs (length vs) = Some v)
  ∨ (Forall (λ v, IsYanked m v = true) vs
     ∧ for_down body vs (length vs) = None).
Proof.
  intros body.
  destruct (for_down_total body vs)
    as [(l1 & v & l2 & r & -> & Hv & Hall & Hres) | [Hall Hres]].
  - left. exists v. unfold body in Hv.
    destruct (IsYanked m v) eqn:Hy; simpl in Hv; [discriminate|].
    injection Hv as <-. split; [|exact Hres].
    exists l1, l2. repeat split; auto.
    eapply Forall_impl; [exact Hall|]. intros x Hx. unfold body in Hx.
    destruct (IsYanked m x); simpl in Hx; [discriminate | discriminate].
  - right. split; [|exact Hres].
    eapply Forall_impl; [exact Hall|]. intros x Hx. unfold body in Hx.
    destruct (IsYanked m x); simpl in Hx; [reflexivity | discriminate].
Qed.

(** The body of the first loop of [LatestStable]. *)
Lemma scan_stable (m : option Metadata) (vs : list string) :
  let body := λ v, if IsYanked m v then None
                   else if negb (IsPrerelease v) then Some v else None in
  (∃ v, last_such (stable m) vs v ∧ for_down body vs (length vs) = Some v)
  ∨ (Forall (λ v, ¬ stable m v) vs ∧ for_down body vs (length vs) = None).
Proof.
  intros body.
  assert (Hnone : ∀ x, body x = None → ¬ stable m x).
  { intros x Hx [Hy Hp]. unfold body in Hx. rewrite Hy, Hp in Hx. discriminate. }
  destruct (for_down_total body vs)
    as [(l1 & v & l2 & r & -> & Hv & Hall & Hres) | [Hall Hres]].
  - left. exists v. unfold body in Hv.
    destruct (IsYanked m v) eqn:Hy; [discriminate|].
    destruct (IsPrerelease v) eqn:Hp; simpl in Hv; [discriminate|].
    injection Hv as <-. split; [|exact Hres].
    exists l1, l2. repeat split; auto.
    eapply Forall_impl; [exact Hall | exact Hnone].
  - right. split; [|exact Hres].
    eapply Forall_impl; [exact Hall | exact Hnone].
Qed.

Lemma Latest_unfold (m : Metadata) :
  Latest (Some m) =
  match for_down (λ v, if negb (IsYanked (Some m) v) then Some v else None)
                 (Versions m) (length (Versions m)) with
  | Some v => v
  | None => ""
  end.
Proof.
  unfold Latest. destruct (Versions m); reflexivity.
Qed.

Lemma LatestStable_unfold (m : Metadata) :
  LatestStable (Some m) =
  match for_down (λ v, if IsYanked (Some m) v then None
                       else if negb (IsPrerelease v) then Some v else None)
                 (Versions m) (length (Versions m)) with
  | Some v => v
  | None =>
      match for_down (λ v, if negb (IsYanked (Some m) v) then Some v else None)
                     (Versions m) (length (Versions m)) with
      | Some v => v
      | None => ""
      end
  end.
Proof.
  unfold LatestStable. destruct (Versions m); reflexivity.
Qed.

Lemma Latest_all_yanked (m : Metadata) :
  Forall (λ v, IsYanked (Some m) v = true) (Versions m) → Latest (Some m) = "".
Proof.
  intros Hall. rewrite Latest_unfold, for_down_none; [reflexivity|].
  eapply Forall_impl; [exact Hall|]. intros x Hx. cbv beta in Hx.
  rewrite Hx. reflexivity.
Qed.

Lemma last_such_elem (P : string → Prop) (vs : list string) (v : string) :
  last_such P vs v → In v vs ∧ P v.
Proof.
  intros (l1 & l2 & -> & Hv & _). split; [|exact Hv].
  apply in_or_app. right. left. reflexivity.
Qed.

Lemma IsPrerelease_empty : IsPrerelease "" = false.
Proof. reflexivity. Qed.

(** The version resolver on the Metadata of the package's tests and of
    scenario A of the specification. *)
Example Latest_scenario_A :
  let meta := {| Versions := ["1.0.0"; "1.1.0"; "2.0.0"];
                 YankedVersions := Some {["2.0.0" := "broken"]};
                 Maintainers := []; Homepage := ""; Repository := [] |} in
  Latest (Some meta) = "1.1.0"
  ∧ IsYanked (Some meta) "2.0.0" = true
  ∧ IsYanked (Some meta) "1.0.0" = false
  ∧ YankReason (Some meta) "2.0.0" = "broken"
  ∧ YankReason (Some meta) "1.0.0" = ""
  ∧ HasVersion (Some meta) "1.1.0" = true
  ∧ HasVersion (Some meta) "9.9.9" = false.
Proof. vm_compute. repeat split. Qed.

Example LatestStable_falls_back :
  LatestStable (Some {| Versions := ["1.0.0"; "1.1.0"; "2.0.0-rc1"];
                        YankedVersions := Some {["1.1.0" := "broken"]};
                        Maintainers := []; Homepage := ""; Repository := [] |})
  = "1.0.0"
  ∧ LatestStable (Some {| Versions := ["1.0.0-alpha"; "1.0.0-beta.2"];
                          YankedVersions := None;
                          Maintainers := []; Homepage := ""; Repository := [] |})
    = "1.0.0-beta.2".
Proof. vm_compute. split; reflexivity. Qed.

Example IsPrerelease_precision :
  map IsPrerelease ["1.0.0"; "1.0.0-rc1"; "2.0-alpha"; "1.0-pre"; "1.0.0-special"]
  = [false; true; true; true; false].
Proof. reflexivity. Qed.

(** C2 (as amended): for every Metadata [m], [Latest] returns the last
    (highest-index) element of [m.Versions] that is not a key of
    [m.YankedVersions], or the empty string when every element is yanked;
    the result is the empty string exactly when [m.Versions] is empty, every
    element is yanked, or that last element which is not yanked is itself
    the empty string.  With no yanked version at all, [Latest] is the last
    element of [m.Versions], and the empty string when [m.Versions] is
    empty. *)
Theorem Latest_last_not_yanked (m : Metadata) :
  let yanked v := IsYanked (Some m) v = true in
  let live v := IsYanked (Some m) v = false in
  ((∃ v, last_such live (Versions m) v ∧ Latest (Some m) = v)
   ∨ (Forall yanked (Versions m) ∧ Latest (Some m) = ""))
  ∧ (Latest (Some m) = "" ↔
       Versions m = [] ∨ Forall yanked (Versions m)
       ∨ last_such live (Versions m) "")
  ∧ ((∀ v, live v) → Latest (Some m) = default "" (last (Versions m))).
Proof.
  intros yanked live. rewrite Latest_unfold.
  set (body := λ v, if negb (IsYanked (Some m) v) then Some v else None).
  split; [|split].
  - destruct (scan_not_yanked (Some m) (Versions m)) as [(v & Hv & Hres) | [Hall Hres]];
      fold body in Hres; rewrite Hres.
    + left. eauto.
    + right. eauto.
  - split.
    + destruct (scan_not_yanked (Some m) (Versions m))
        as [(v & Hv & Hres) | [Hall Hres]]; fold body in Hres; rewrite Hres.
      * intros ->. right. right. exact Hv.
      * intros _. right. left. exact Hall.
    + intros [Hnil | [Hall | (l1 & l2 & Heq & Hv & Hrest)]].
      * rewrite Hnil. reflexivity.
      * rewrite for_down_none; [reflexivity|].
        eapply Forall_impl; [exact Hall|]. intros x Hx. unfold body.
        unfold yanked in Hx. rewrite Hx. reflexivity.
      * rewrite Heq. rewrite (for_down_found body l1 l2 "" ""); [reflexivity| |].
        -- unfold body. unfold live in Hv. rewrite Hv. reflexivity.
        -- eapply Forall_impl; [exact Hrest|]. intros x Hx. unfold body.
           unfold live in Hx. destruct (IsYanked (Some m) x); [reflexivity|].
           contradiction Hx; reflexivity.
  - intros Hlive. destruct (Versions m) as [|x vs _] using rev_ind.
    + reflexivity.
    + rewrite for_down_snoc, last_snoc. unfold body at 1.
      rewrite (Hlive x). reflexivity.
Qed.

(** The amended statement of C2 on scenario A of the specification and on a
    Metadata without yanked versions. *)
Lemma Latest_last_not_yanked_witness :
  Latest (Some {| Versions := ["1.0.0"; "1.1.0"; "2.0.0"];
                  YankedVersions := None;
                  Maintainers := []; Homepage := ""; Repository := [] |})
  = "2.0.0".
Proof.
  apply (proj2 (proj2 (Latest_last_not_yanked
    {| Versions := ["1.0.0"; "1.1.0"; "2.0.0"]; YankedVersions := None;
       Maintainers := []; Homepage := ""; Repository := [] |}))).
  intros v. reflexivity.
Defined.

(** C2 as stated fails on a version list that holds an empty string which is
    not yanked: [Latest] is empty, yet the list is not empty and not every
    element is yanked. *)
Lemma Latest_empty_iff_counterexample :
  let m := {| Versions := [""]; YankedVersions := None;
              Maintainers := []; Homepage := ""; Repository := [] |} in
  ¬ (Latest (Some m) = "" ↔
     Versions m = [] ∨ Forall (λ v, IsYanked (Some m) v = true) (Versions m)).
Proof.
  intros m [Hto _]. destruct (Hto eq_refl) as [Hnil | Hall].
  - discriminate Hnil.
  - apply Forall_inv in Hall. discriminate Hall.
Qed.

(** C1 (as amended): for every Metadata [m], [LatestStable] returns the last
    element of [m.Versions] that is neither yanked nor a prerelease; if
    there is none, the last element that is not yanked (possibly a
    prerelease); if every element is yanked, the empty string.  The result
    is the empty string exactly when [m.Versions] is empty, every element is
    yanked, or the selected element is itself the empty string.  A non-empty
    result is never a key of [m.YankedVersions]. *)
Theorem LatestStable_two_pass (m : Metadata) :
  let yanked v := IsYanked (Some m) v = true in
  let live v := IsYanked (Some m) v = false in
  ((∃ v, last_such (stable (Some m)) (Versions m) v ∧ LatestStable (Some m) = v)
   ∨ (Forall (λ v, ¬ stable (Some m) v) (Versions m)
      ∧ ∃ v, last_such live (Versions m) v ∧ LatestStable (Some m) = v)
   ∨ (Forall yanked (Versions m) ∧ LatestStable (Some m) = ""))
  ∧ (LatestStable (Some m) = "" ↔
       Versions m = [] ∨ Forall yanked (Versions m)
       ∨ last_such (stable (Some m)) (Versions m) "")
  ∧ (LatestStable (Some m) ≠ "" →
       IsYanked (Some m) (LatestStable (Some m)) = false
       ∧ ∀ yv, YankedVersions m = Some yv → yv !! LatestStable (Some m) = None).
Proof.
  intros yanked live.
  assert (Hcases :
    (∃ v, last_such (stable (Some m)) (Versions m) v ∧ LatestStable (Some m) = v)
    ∨ (Forall (λ v, ¬ stable (Some m) v) (Versions m)
       ∧ ∃ v, last_such live (Versions m) v ∧ LatestStable (Some m) = v)
    ∨ (Forall yanked (Versions m) ∧ LatestStable (Some m) = "")).
  { rewrite LatestStable_unfold.
    destruct (scan_stable (Some m) (Versions m)) as [(v & Hv & Hres) | [Hnone Hres]];
      cbv zeta in Hres; rewrite Hres.
    - left. eauto.
    - destruct (scan_not_yanked (Some m) (Versions m))
        as [(v & Hv & Hres2) | [Hall Hres2]]; cbv zeta in Hres2; rewrite Hres2.
      + right. left. eauto.
      + right. right. eauto. }
  split; [exact Hcases | split].
  - split.
    + intros Hempty.
      destruct Hcases as [(v & Hv & Hr) | [(Hnone & v & Hv & Hr) | [Hall _]]].
      * right. right. congruence.
      * exfalso. rewrite Hempty in Hr. subst v.
        apply last_such_elem in Hv as [Hin Hlive].
        rewrite List.Forall_forall in Hnone. apply (Hnone "" Hin).
        split; [exact Hlive | exact IsPrerelease_empty].
      * right. left. exact Hall.
    + rewrite LatestStable_unfold.
      intros [Hnil | [Hall | (l1 & l2 & Heq & [Hy Hp] & Hrest)]].
      * rewrite Hnil. reflexivity.
      * rewrite !for_down_none; [reflexivity| |];
          (eapply Forall_impl; [exact Hall|]); intros x Hx;
          unfold yanked in Hx; rewrite Hx; reflexivity.
      * rewrite Heq.
        rewrite (for_down_found _ l1 l2 "" ""); [reflexivity| |].
        -- rewrite Hy, Hp. reflexivity.
        -- eapply Forall_impl; [exact Hrest|]. intros x Hx. unfold stable in Hx.
           destruct (IsYanked (Some m) x); [reflexivity|].
           destruct (IsPrerelease x); [reflexivity|].
           contradiction Hx; split; reflexivity.
  - intros Hne.
    assert (Hlive : IsYanked (Some m) (LatestStable (Some m)) = false).
    { destruct Hcases as [(v & Hv & Hr) | [(Hnone & v & Hv & Hr) | [_ Hr]]].
      - rewrite Hr. apply last_such_elem in Hv as [_ [Hy _]]. exact Hy.
      - rewrite Hr. apply last_such_elem in Hv as [_ Hy]. exact Hy.
      - contradiction. }
    split; [exact Hlive|].
    intros yv Hyv. unfold IsYanked in Hlive. rewrite Hyv in Hlive.
    destruct (yv !! LatestStable (Some m)); [discriminate | reflexivity].
Qed.

(** The amended statement of C1 on a list whose newest entry is a release
    candidate and whose newest stable entry is yanked. *)
Lemma LatestStable_two_pass_witness :
  let m := {| Versions := ["1.0.0"; "1.1.0"; "2.0.0-rc1"];
              YankedVersions := Some {["1.1.0" := "broken"]};
              Maintainers := []; Homepage := ""; Repository := [] |} in
  IsYanked (Some m) (LatestStable (Some m)) = false.
Proof.
  intros m. apply (proj2 (proj2 (LatestStable_two_pass m))).
  vm_compute. discriminate.
Defined.

(** C1 as stated fails on a version list that holds an empty string which is
    not yanked: [LatestStable] is empty, yet the list is not empty and not
    every element is yanked. *)
Lemma LatestStable_empty_iff_counterexample :
  let m := {| Versions := [""]; YankedVersions := None;
              Maintainers := []; Homepage := ""; Repository := [] |} in
  ¬ (LatestStable (Some m) = "" ↔
     Versions m = [] ∨ Forall (λ v, IsYanked (Some m) v = true) (Versions m)).
Proof.
  intros m [Hto _]. destruct (Hto eq_refl) as [Hnil | Hall].
  - discriminate Hnil.
  - apply Forall_inv in Hall. discriminate Hall.
Qed.

(** C8: on a nil [*Metadata] every query method returns its no-match
    result, the same as on the empty Metadata: [IsYanked] and [HasVersion]
    are false, [YankReason], [Latest] and [LatestStable] are the empty
    string. *)
Theorem nil_Metadata_no_match (version : string) :
  (IsYanked None version = false
   ∧ YankReason None version = ""
   ∧ HasVersion None version = false
   ∧ Latest None = ""
   ∧ LatestStable None = "")
  ∧ (IsYanked None version = IsYanked (Some empty_Metadata) version
     ∧ YankReason None version = YankReason (Some empty_Metadata) version
     ∧ HasVersion None version = HasVersion (Some empty_Metadata) version
     ∧ Latest None = Latest (Some empty_Metadata)
     ∧ LatestStable None = LatestStable (Some empty_Metadata)).
Proof. repeat split. Qed.

(** C9: [IsPrerelease v] is true if and only if [v] contains one of "-rc",
    "-alpha", "-beta", "-dev", "-pre" as a substring. *)
Theorem IsPrerelease_substring (v : string) :
  IsPrerelease v = true ↔
  ∃ indicator, In indicator ["-rc"; "-alpha"; "-beta"; "-dev"; "-pre"]
               ∧ ∃ a b, v = a +:+ indicator +:+ b.
Proof.
  unfold IsPrerelease, prereleaseIndicators. rewrite any_indicator_spec.
  split; intros [i [Hi Hc]]; exists i; (split; [exact Hi|]);
    apply strings_Contains_spec; exact Hc.
Qed.

(** ** Errors *)

(** Induction over the chain below an error, through [RequestError.Err]. *)
Lemma error_chain_ind (P : error → Prop) :
  (∀ v, P (SentinelErr v)) →
  (∀ e, P (NotFoundErr e)) →
  (∀ u s, P (RequestErr u s None)) →
  (∀ u s inner, P inner → P (RequestErr u s (Some inner))) →
  (∀ f inner, P inner → P (WrapErr f inner)) →
  (∀ msg, P (LeafErr msg)) →
  ∀ e, P e.
Proof.
  intros Hvar Hnfe Hreq0 Hreq Hwrap Hleaf.
  fix IH 1. intros [ v | e | u s [inner|] | f inner | msg ].
  - apply Hvar.
  - apply Hnfe.
  - apply Hreq, IH.
  - apply Hreq0.
  - apply Hwrap, IH.
  - apply Hleaf.
Qed.

Lemma isNotFound_reaches (e : error) :
  isNotFound (Some e) = true ↔ reaches_not_found e.
Proof.
  induction e as [ v | nf | u s | u s inner IH | f inner IH | msg ]
    using error_chain_ind; cbn [isNotFound isNotFound_nonnil same_error].
  - destruct v.
    + split; [constructor | reflexivity].
    + split; [discriminate|]. inversion 1; subst. discriminate.
  - split; [constructor | reflexivity].
  - split; [discriminate|]. inversion 1; subst. discriminate.
  - cbn [isNotFound] in IH. rewrite IH. split.
    + intros Hin. eapply reach_Unwrap; [reflexivity | exact Hin].
    + inversion 1 as [ | | err u' Hu Hr ]; subst.
      cbn [Unwrap] in Hu. injection Hu as <-. exact Hr.
  - cbn [isNotFound] in IH. rewrite IH. split.
    + intros Hin. eapply reach_Unwrap; [reflexivity | exact Hin].
    + inversion 1 as [ | | err u' Hu Hr ]; subst.
      cbn [Unwrap] in Hu. injection Hu as <-. exact Hr.
  - split; [discriminate|]. inversion 1; subst. discriminate.
Qed.

Lemma isNotFound_of_foreign (f : foreign) :
  isNotFound (Some (of_foreign f)) = false.
Proof.
  induction f as [msg | msg inner IH]; [reflexivity | exact IH].
Qed.

Lemma errors_Is_of_foreign (f : foreign) (target : sentinel) :
  errors_Is (of_foreign f) target = false.
Proof.
  induction f as [msg | msg inner IH]; [destruct target; reflexivity|].
  cbn [of_foreign errors_Is same_error]. exact IH.
Qed.

(** ** Cache and client *)

Section ClientProps.
Context {H : Type} {HostOps : Host H}.

Lemma cache_get_absent (ca : cache) (h : H) (key : string) (chk : bool) e :
  os_Stat h (cache_path ca key) = inl e → cache_get ca h key chk = None.
Proof. intros Hst. unfold cache_get. rewrite Hst. reflexivity. Qed.

Lemma cache_get_stale (ca : cache) (h : H) (key : string) info :
  os_Stat h (cache_path ca key) = inr info →
  ttl ca < time_Since h (ModTime info) →
  cache_get ca h key true = None.
Proof.
  intros Hst Hage. unfold cache_get. rewrite Hst.
  apply Z.ltb_lt in Hage. rewrite Hage. reflexivity.
Qed.

Lemma cache_get_unchecked (ca : cache) (h : H) (key : string) info data :
  os_Stat h (cache_path ca key) = inr info →
  os_ReadFile h (cache_path ca key) = inr data →
  cache_get ca h key false = Some data.
Proof.
  intros Hst Hrd. unfold cache_get. rewrite Hst, Hrd. reflexivity.
Qed.

Lemma cache_get_fresh (ca : cache) (h : H) (key : string) info data :
  os_Stat h (cache_path ca key) = inr info →
  time_Since h (ModTime info) ≤ ttl ca →
  os_ReadFile h (cache_path ca key) = inr data →
  cache_get ca h key true = Some data.
Proof.
  intros Hst Hage Hrd. unfold cache_get. rewrite Hst, Hrd.
  apply Z.ltb_ge in Hage. rewrite Hage. reflexivity.
Qed.

Lemma fetch_host (c : Client) ctx (w : World H) urlPath module version :
  host (fst (fetch c ctx w urlPath module version)) = host w.
Proof.
  unfold fetch.
  destruct (url_JoinPath _ _) as [e|u]; [reflexivity|].
  destruct (http_NewRequest ctx u) as [e|]; [reflexivity|].
  destruct (http_Do _) as [e|status body]; [reflexivity|].
  destruct (status =? 404); [reflexivity|].
  destruct (negb (status =? 200)); [reflexivity|].
  destruct body; reflexivity.
Qed.

Lemma fetch_sent (c : Client) ctx (w : World H) urlPath module version u :
  url_JoinPath (baseURL c) urlPath = inr u →
  http_NewRequest ctx u = None →
  sent (fst (fetch c ctx w urlPath module version)) =
  sent w ++ [{| req_ctx := ctx; req_URL := u; req_UserAgent := userAgent c;
                req_Accept := "application/json" |}].
Proof.
  intros Hu Hreq. unfold fetch. rewrite Hu, Hreq.
  destruct (http_Do _) as [e|status body]; [reflexivity|].
  destruct (status =? 404); [reflexivity|].
  destruct (negb (status =? 200)); [reflexivity|].
  destruct body; reflexivity.
Qed.

(** The only not-found error [fetch] makes is the [*NotFoundError] of a 404
    response. *)
Lemma fetch_not_found (c : Client) ctx (w w' : World H) urlPath module version err :
  fetch c ctx w urlPath module version = (w', inl err) →
  isNotFound (Some err) = true →
  err = NotFoundErr {| NF_Module := module; NF_Version := version;
                       NF_StatusCode := 404 |}.
Proof.
  unfold fetch.
  destruct (url_JoinPath _ _) as [e|u].
  { intros [= _ <-] Hnf. cbn [isNotFound isNotFound_nonnil same_error] in Hnf.
    pose proof (isNotFound_of_foreign e) as He. cbn [isNotFound] in He. congruence. }
  destruct (http_NewRequest ctx u) as [e|].
  { intros [= _ <-] Hnf. cbn [isNotFound isNotFound_nonnil same_error] in Hnf.
    pose proof (isNotFound_of_foreign e) as He. cbn [isNotFound] in He. congruence. }
  destruct (http_Do _) as [e|status body].
  { intros [= _ <-] Hnf. cbn [isNotFound isNotFound_nonnil same_error] in Hnf.
    pose proof (isNotFound_of_foreign e) as He. cbn [isNotFound] in He. congruence. }
  destruct (status =? 404) eqn:H404.
  { intros [= _ <-] _. apply Z.eqb_eq in H404. subst status. reflexivity. }
  destruct (negb (status =? 200)).
  { intros [= _ <-] Hnf. discriminate Hnf. }
  destruct body as [e|data]; [|discriminate].
  intros [= _ <-] Hnf. cbn [isNotFound isNotFound_nonnil same_error] in Hnf.
  pose proof (isNotFound_of_foreign e) as He. cbn [isNotFound] in He. congruence.
Qed.

(** C7: [isNotFound] is false on nil, and on an error it is true exactly
    when the error is [ErrNotFound], a [*NotFoundError], or its chain of
    [Unwrap] calls reaches one of them.  Every [*NotFoundError] satisfies
    [errors.Is(e, ErrNotFound)]; a not-found error wrapped inside another
    error still satisfies the predicate; the transport errors of [fetch]
    (every error it returns other than the [*NotFoundError] of a 404) and
    parse errors (a wrapped decoder error) do not. *)
Theorem isNotFound_unwraps :
  isNotFound None = false
  ∧ (∀ e, isNotFound (Some e) = true ↔ reaches_not_found e)
  ∧ (∀ nf, errors_Is (NotFoundErr nf) var_ErrNotFound = true
           ∧ isNotFound (Some (NotFoundErr nf)) = true)
  ∧ (∀ inner, isNotFound (Some inner) = true →
       (∀ f, isNotFound (Some (WrapErr f inner)) = true)
       ∧ (∀ u s, isNotFound (Some (RequestErr u s (Some inner))) = true))
  ∧ (∀ (c : Client) ctx (w w' : World H) urlPath module version err,
       fetch c ctx w urlPath module version = (w', inl err) →
       (∀ nf, err ≠ NotFoundErr nf) → isNotFound (Some err) = false)
  ∧ (∀ f e, isNotFound (Some (WrapErr f (of_foreign e))) = false).
Proof.
  split; [reflexivity|]. split; [exact isNotFound_reaches|].
  split; [intros nf; split; reflexivity|].
  split; [intros inner Hin; split; intros; exact Hin|].
  split.
  - intros c ctx w w' urlPath module version err Hf Hne.
    destruct (isNotFound (Some err)) eqn:Hnf; [|reflexivity].
    exfalso. eapply Hne. eapply fetch_not_found; eassumption.
  - intros f e. exact (isNotFound_of_foreign e).
Qed.

(** C3: [cache.get] finds nothing when the entry is absent; with the
    freshness check it also finds nothing when the entry's age exceeds the
    time-to-live, and the stored bytes otherwise; without the check it
    returns the stored bytes at any age.  [Client.Metadata] looks up with
    the check: it is served from a fresh entry and sends a request when the
    entry is stale.  [Client.Source] and [Client.ModuleFile] look up without
    it: they are served from the entry at any age. *)
Theorem cache_get_freshness :
  (∀ (ca : cache) (h : H) key chk e,
     os_Stat h (cache_path ca key) = inl e → cache_get ca h key chk = None)
  ∧ (∀ (ca : cache) (h : H) key info,
       os_Stat h (cache_path ca key) = inr info →
       ttl ca < time_Since h (ModTime info) →
       cache_get ca h key true = None)
  ∧ (∀ (ca : cache) (h : H) key info data,
       os_Stat h (cache_path ca key) = inr info →
       os_ReadFile h (cache_path ca key) = inr data →
       cache_get ca h key false = Some data
       ∧ (time_Since h (ModTime info) ≤ ttl ca →
          cache_get ca h key true = Some data))
  ∧ (∀ (c : Client) ca ctx (w : World H) module info data meta,
       let key := path_Join ["modules"; module; "metadata.json"] in
       c_cache c = Some ca →
       os_Stat (host w) (cache_path ca key) = inr info →
       os_ReadFile (host w) (cache_path ca key) = inr data →
       json_Unmarshal_Metadata data = inr meta →
       (time_Since (host w) (ModTime info) ≤ ttl ca →
        Client_Metadata c ctx w module = (w, inr meta))
       ∧ (ttl ca < time_Since (host w) (ModTime info) →
          ∀ u, url_JoinPath (baseURL c) key = inr u →
               http_NewRequest ctx u = None →
               sent (fst (Client_Metadata c ctx w module)) =
               sent w ++ [{| req_ctx := ctx; req_URL := u;
                             req_UserAgent := userAgent c;
                             req_Accept := "application/json" |}]))
  ∧ (∀ (c : Client) ca ctx (w : World H) module version info data src,
       let key := path_Join ["modules"; module; version; "source.json"] in
       c_cache c = Some ca →
       os_Stat (host w) (cache_path ca key) = inr info →
       os_ReadFile (host w) (cache_path ca key) = inr data →
       json_Unmarshal_Source data = inr src →
       Client_Source c ctx w module version = (w, inr src))
  ∧ (∀ (c : Client) ca ctx (w : World H) module version info data,
       let key := path_Join ["modules"; module; version; "MODULE.bazel"] in
       c_cache c = Some ca →
       os_Stat (host w) (cache_path ca key) = inr info →
       os_ReadFile (host w) (cache_path ca key) = inr data →
       Client_ModuleFile c ctx w module version = (w, inr data)).
Proof.
  split; [exact cache_get_absent|]. split; [exact cache_get_stale|].
  split.
  { intros ca h key info data Hst Hrd. split.
    - eapply cache_get_unchecked; eassumption.
    - intros Hage. eapply cache_get_fresh; eassumption. }
  split.
  { intros c ca ctx w module info data meta key Hc Hst Hrd Hjs. split.
    - intros Hage. unfold Client_Metadata, cache_hit. fold key. rewrite Hc.
      rewrite (cache_get_fresh _ _ _ _ _ Hst Hage Hrd), Hjs. reflexivity.
    - intros Hage u Hu Hreq. unfold Client_Metadata, cache_hit. fold key.
      rewrite Hc, (cache_get_stale _ _ _ _ Hst Hage).
      pose proof (fetch_sent c ctx w key module "" u Hu Hreq) as Hsent.
      destruct (fetch c ctx w key module "") as [w1 [err|body]]; [exact Hsent|].
      destruct (json_Unmarshal_Metadata body); [exact Hsent|].
      unfold cache_store. rewrite Hc. exact Hsent. }
  split.
  { intros c ca ctx w module version info data src key Hc Hst Hrd Hjs.
    unfold Client_Source, cache_hit. fold key. rewrite Hc.
    rewrite (cache_get_unchecked _ _ _ _ _ Hst Hrd), Hjs. reflexivity. }
  intros c ca ctx w module version info data key Hc Hst Hrd.
  unfold Client_ModuleFile, cache_hit. fold key. rewrite Hc.
  rewrite (cache_get_unchecked _ _ _ _ _ Hst Hrd). reflexivity.
Qed.

End ClientProps.

Section ClientCalls.
Context {H : Type} {HostOps : Host H}.

Lemma fetch_host_eq (c : Client) ctx (w w1 : World H) urlPath module version r :
  fetch c ctx w urlPath module version = (w1, r) → host w1 = host w.
Proof.
  intros Hf. pose proof (fetch_host c ctx w urlPath module version) as Hh.
  rewrite Hf in Hh. exact Hh.
Qed.

Lemma parse_error_kind (f : string) (e : foreign) :
  isNotFound (Some (WrapErr f (of_foreign e))) = false
  ∧ errors_Is (WrapErr f (of_foreign e)) var_ErrNotFound = false
  ∧ (∀ nf, WrapErr f (of_foreign e) ≠ NotFoundErr nf)
  ∧ (∀ u s inner, WrapErr f (of_foreign e) ≠ RequestErr u s inner).
Proof.
  split; [exact (isNotFound_of_foreign e)|].
  split; [exact (errors_Is_of_foreign e var_ErrNotFound)|].
  split; intros; discriminate.
Qed.

Lemma Client_Metadata_write (c : Client) ctx (w w' : World H) module r :
  let key := path_Join ["modules"; module; "metadata.json"] in
  Client_Metadata c ctx w module = (w', r) →
  host w' = host w
  ∨ ∃ ca w1 data meta,
      c_cache c = Some ca
      ∧ Metadata_cached c (host w) key = None
      ∧ fetch c ctx w key module "" = (w1, inr data)
      ∧ json_Unmarshal_Metadata data = inr meta
      ∧ r = inr meta
      ∧ host w' = cache_set ca (host w1) key data.
Proof.
  intros key. unfold Client_Metadata. fold key. fold (Metadata_cached c (host w) key).
  destruct (Metadata_cached c (host w) key) as [meta|] eqn:Hc.
  { intros [= <- _]. left. reflexivity. }
  destruct (fetch c ctx w key module "") as [w1 [err|data]] eqn:Hf.
  { intros [= <- _]. left. eapply fetch_host_eq, Hf. }
  destruct (json_Unmarshal_Metadata data) as [e|meta] eqn:Hjs.
  { intros [= <- _]. left. eapply fetch_host_eq, Hf. }
  intros [= <- <-]. unfold cache_store.
  destruct (c_cache c) as [ca|] eqn:Hca.
  - right. exists ca, w1, data, meta. repeat split; auto.
  - left. eapply fetch_host_eq, Hf.
Qed.

Lemma Client_Metadata_parse_failure (c : Client) ctx (w w1 : World H) module data e :
  let key := path_Join ["modules"; module; "metadata.json"] in
  Metadata_cached c (host w) key = None →
  fetch c ctx w key module "" = (w1, inr data) →
  json_Unmarshal_Metadata data = inl e →
  Client_Metadata c ctx w module =
    (w1, inl (WrapErr "bcr: failed to parse metadata for %s: %w" (of_foreign e)))
  ∧ host w1 = host w.
Proof.
  intros key Hc Hf Hjs. split; [|eapply fetch_host_eq, Hf].
  unfold Client_Metadata. fold key. fold (Metadata_cached c (host w) key).
  rewrite Hc, Hf, Hjs. reflexivity.
Qed.

Lemma Client_Source_write (c : Client) ctx (w w' : World H) module version r :
  let key := path_Join ["modules"; module; version; "source.json"] in
  Client_Source c ctx w module version = (w', r) →
  host w' = host w
  ∨ ∃ ca w1 data src,
      c_cache c = Some ca
      ∧ Source_cached c (host w) key = None
      ∧ fetch c ctx w key module version = (w1, inr data)
      ∧ json_Unmarshal_Source data = inr src
      ∧ r = inr src
      ∧ host w' = cache_set ca (host w1) key data.
Proof.
  intros key. unfold Client_Source. fold key. fold (Source_cached c (host w) key).
  destruct (Source_cached c (host w) key) as [src|] eqn:Hc.
  { intros [= <- _]. left. reflexivity. }
  destruct (fetch c ctx w key module version) as [w1 [err|data]] eqn:Hf.
  { intros [= <- _]. left. eapply fetch_host_eq, Hf. }
  destruct (json_Unmarshal_Source data) as [e|src] eqn:Hjs.
  { intros [= <- _]. left. eapply fetch_host_eq, Hf. }
  intros [= <- <-]. unfold cache_store.
  destruct (c_cache c) as [ca|] eqn:Hca.
  - right. exists ca, w1, data, src. repeat split; auto.
  - left. eapply fetch_host_eq, Hf.
Qed.

Lemma Client_Source_parse_failure (c : Client) ctx (w w1 : World H)
    module version data e :
  let key := path_Join ["modules"; module; version; "source.json"] in
  Source_cached c (host w) key = None →
  fetch c ctx w key module version = (w1, inr data) →
  json_Unmarshal_Source data = inl e →
  Client_Source c ctx w module version =
    (w1, inl (WrapErr "bcr: failed to parse source for %s@%s: %w" (of_foreign e)))
  ∧ host w1 = host w.
Proof.
  intros key Hc Hf Hjs. split; [|eapply fetch_host_eq, Hf].
  unfold Client_Source. fold key. fold (Source_cached c (host w) key).
  rewrite Hc, Hf, Hjs. reflexivity.
Qed.

(** C4: in [Client.Metadata] and [Client.Source] the host's files change
    only through [cache.set] under the resource's relative path, after the
    fetched bytes have decoded; when the fetched bytes fail to decode, the
    call returns the parse error, which is neither a not-found error nor a
    [*RequestError], and leaves the host's files as they were. *)
Theorem cache_write_after_parse :
  (∀ (c : Client) ctx (w w' : World H) module r,
     let key := path_Join ["modules"; module; "metadata.json"] in
     Client_Metadata c ctx w module = (w', r) →
     (host w' = host w
      ∨ ∃ ca w1 data meta,
          c_cache c = Some ca
          ∧ Metadata_cached c (host w) key = None
          ∧ fetch c ctx w key module "" = (w1, inr data)
          ∧ json_Unmarshal_Metadata data = inr meta
          ∧ r = inr meta
          ∧ host w' = cache_set ca (host w1) key data)
     ∧ (∀ w1 data e,
          Metadata_cached c (host w) key = None →
          fetch c ctx w key module "" = (w1, inr data) →
          json_Unmarshal_Metadata data = inl e →
          let err := WrapErr "bcr: failed to parse metadata for %s: %w"
                             (of_foreign e) in
          r = inl err ∧ host w' = host w
          ∧ isNotFound (Some err) = false
          ∧ errors_Is err var_ErrNotFound = false
          ∧ (∀ nf, err ≠ NotFoundErr nf)
          ∧ (∀ u s inner, err ≠ RequestErr u s inner)))
  ∧ (∀ (c : Client) ctx (w w' : World H) module version r,
       let key := path_Join ["modules"; module; version; "source.json"] in
       Client_Source c ctx w module version = (w', r) →
       (host w' = host w
        ∨ ∃ ca w1 data src,
            c_cache c = Some ca
            ∧ Source_cached c (host w) key = None
            ∧ fetch c ctx w key module version = (w1, inr data)
            ∧ json_Unmarshal_Source data = inr src
            ∧ r = inr src
            ∧ host w' = cache_set ca (host w1) key data)
       ∧ (∀ w1 data e,
            Source_cached c (host w) key = None →
            fetch c ctx w key module version = (w1, inr data) →
            json_Unmarshal_Source data = inl e →
            let err := WrapErr "bcr: failed to parse source for %s@%s: %w"
                               (of_foreign e) in
            r = inl err ∧ host w' = host w
            ∧ isNotFound (Some err) = false
            ∧ errors_Is err var_ErrNotFound = false
            ∧ (∀ nf, err ≠ NotFoundErr nf)
            ∧ (∀ u s inner, err ≠ RequestErr u s inner))).
Proof.
  split.
  - intros c ctx w w' module r key Hcall. split.
    + exact (Client_Metadata_write c ctx w w' module r Hcall).
    + intros w1 data e Hc Hf Hjs err.
      destruct (Client_Metadata_parse_failure c ctx w w1 module data e Hc Hf Hjs)
        as [Hres Hh].
      rewrite Hres in Hcall. injection Hcall as <- <-.
      split; [reflexivity|]. split; [exact Hh|]. apply parse_error_kind.
  - intros c ctx w w' module version r key Hcall. split.
    + exact (Client_Source_write c ctx w w' module version r Hcall).
    + intros w1 data e Hc Hf Hjs err.
      destruct (Client_Source_parse_failure c ctx w w1 module version data e Hc Hf Hjs)
        as [Hres Hh].
      rewrite Hres in Hcall. injection Hcall as <- <-.
      split; [reflexivity|]. split; [exact Hh|]. apply parse_error_kind.
Qed.

(** C10: when the metadata fetch of [Client.Latest] succeeds and [Latest()]
    of the fetched Metadata is empty, in particular when its version list is
    empty or all of its versions are yanked, [Client.Latest] returns a
    [*NotFoundError] with the module name, an empty [Version] and no status
    code, and the not-found predicates match it. *)
Theorem Client_Latest_none_available (c : Client) ctx (w w1 : World H) module meta :
  Client_Metadata c ctx w module = (w1, inr meta) →
  (Latest (Some meta) = ""
   ∨ Versions meta = []
   ∨ Forall (λ v, IsYanked (Some meta) v = true) (Versions meta)) →
  let err := NotFoundErr {| NF_Module := module; NF_Version := "";
                            NF_StatusCode := 0 |} in
  Client_Latest c ctx w module = (w1, inl err)
  ∧ isNotFound (Some err) = true
  ∧ errors_Is err var_ErrNotFound = true.
Proof.
  intros Hmeta Hnone err.
  assert (Hempty : Latest (Some meta) = "").
  { destruct Hnone as [Hl | [Hnil | Hall]]; [exact Hl | |].
    - apply Latest_all_yanked. rewrite Hnil. constructor.
    - apply Latest_all_yanked, Hall. }
  split; [|split; reflexivity].
  unfold Client_Latest. rewrite Hmeta. cbv zeta. rewrite Hempty. reflexivity.
Qed.

End ClientCalls.

(** ** Local-tree backend *)

Lemma drive_letter_test (c : ascii) :
  (byte_le "A" c && byte_le c "Z") || (byte_le "a" c && byte_le c "z") = true
  ↔ drive_letter c.
Proof.
  unfold drive_letter, byte_le.
  rewrite orb_true_iff, !andb_true_iff, !N.leb_le.
  change (N_of_ascii "A") with 65%N. change (N_of_ascii "Z") with 90%N.
  change (N_of_ascii "a") with 97%N. change (N_of_ascii "z") with 122%N.
  reflexivity.
Qed.

Lemma isWindowsAbsolutePath_spec (path : string) :
  isWindowsAbsolutePath path = true ↔
  ∃ letter sep rest,
    path = String letter (String ":" (String sep rest))
    ∧ drive_letter letter ∧ (sep = "\" ∨ sep = "/")%char.
Proof.
  destruct path as [|letter [|colon [|sep rest]]];
    try (split; [discriminate | intros (? & ? & ? & Heq & _); discriminate]).
  unfold isWindowsAbsolutePath. cbn [String.length Nat.ltb Nat.leb byte_at String.get].
  destruct ((byte_le "A" letter && byte_le letter "Z")
            || (byte_le "a" letter && byte_le letter "z")) eqn:Hl; cbn [negb].
  - apply drive_letter_test in Hl.
    destruct (Ascii.eqb colon ":") eqn:Hc; cbn [negb].
    + apply Ascii.eqb_eq in Hc. subst colon.
      rewrite orb_true_iff, !Ascii.eqb_eq. split.
      * intros Hsep. exists letter, sep, rest. auto.
      * intros (l & s & r & [= -> -> ->] & _ & Hsep). exact Hsep.
    + split; [discriminate|].
      intros (l & s & r & [= -> -> -> ->] & _). rewrite Ascii.eqb_refl in Hc.
      discriminate.
  - split; [discriminate|].
    intros (l & s & r & [= -> -> ->] & Hletter & _).
    apply drive_letter_test in Hletter. congruence.
Qed.

Lemma HasPrefix_true (s pre rest : string) :
  s = pre +:+ rest → strings_HasPrefix s pre = true.
Proof. intros ->. apply prefix_spec. eauto. Qed.

Lemma HasPrefix_false (s pre : string) :
  strings_HasPrefix s pre = false ↔ ∀ rest, s ≠ pre +:+ rest.
Proof.
  unfold strings_HasPrefix. split.
  - intros Hp rest ->.
    assert (String.prefix pre (pre +:+ rest) = true) by (apply prefix_spec; eauto).
    congruence.
  - intros Hne. destruct (String.prefix pre s) eqn:Hp; [|reflexivity].
    apply prefix_spec in Hp as [rest ->]. contradiction (Hne rest); reflexivity.
Qed.

(** The tables of the package's tests. *)
Example isWindowsAbsolutePath_table :
  map isWindowsAbsolutePath
    ["C:\"; "C:\path"; "C:/"; "C:/path/to/registry"; "d:/registry";
     "Z:\some\path"; "a:\lowercase"]
  = [true; true; true; true; true; true; true]
  ∧ map isWindowsAbsolutePath
      [""; "C"; "C:"; "C:path"; "/unix/path"; "relative/path"; "./relative";
       "1:/invalid"; "@:/invalid"]
    = [false; false; false; false; false; false; false; false; false].
Proof. split; reflexivity. Qed.

Example NewFileRegistryFromURL_table :
  map NewFileRegistryFromURL
    ["file:///path/to/registry"; "file:///C:/path/to/registry";
     "/absolute/path"; "/"; "D:\registry"; "C:/path/to/registry"]
  = [Some {| root := "/path/to/registry" |};
     Some {| root := "/C:/path/to/registry" |};
     Some {| root := "/absolute/path" |}; Some {| root := "/" |};
     Some {| root := "D:\registry" |};
     Some {| root := "C:/path/to/registry" |}]
  ∧ map NewFileRegistryFromURL
      ["https://example.com"; "http://example.com"; "relative/path";
       "./relative"; "../parent"; "C:relative"; "C:"]
    = [None; None; None; None; None; None; None].
Proof. split; reflexivity. Qed.

(** C5: [NewFileRegistryFromURL s] recognises a "file://" prefix (the root
    is the rest of [s], verbatim), a leading "/", and a drive-letter path
    [<letter>:<separator>...] with an ASCII letter of either case and a
    separator "\" or "/" (the root is [s] itself in both cases); any other
    string gives [(nil, false)].  "C:\path\to\registry" is a file location
    with exactly that root, "relative/path" is not one. *)
Theorem NewFileRegistryFromURL_classifies :
  (∀ s : string,
     (∀ rest, s = "file://" +:+ rest →
        NewFileRegistryFromURL s = Some {| root := rest |})
     ∧ (∀ rest, s = "/" +:+ rest →
          NewFileRegistryFromURL s = Some {| root := s |})
     ∧ (∀ letter sep rest,
          s = String letter (String ":" (String sep rest)) →
          drive_letter letter → (sep = "\" ∨ sep = "/")%char →
          NewFileRegistryFromURL s = Some {| root := s |})
     ∧ ((∀ rest, s ≠ "file://" +:+ rest) →
        (∀ rest, s ≠ "/" +:+ rest) →
        (¬ ∃ letter sep rest,
             s = String letter (String ":" (String sep rest))
             ∧ drive_letter letter ∧ (sep = "\" ∨ sep = "/")%char) →
        NewFileRegistryFromURL s = None))
  ∧ NewFileRegistryFromURL "C:\path\to\registry"
    = Some {| root := "C:\path\to\registry" |}
  ∧ NewFileRegistryFromURL "relative/path" = None.
Proof.
  split; [|split; reflexivity].
  intros s. split; [|split; [|split]].
  - intros rest ->. unfold NewFileRegistryFromURL, strings_TrimPrefix.
    rewrite (HasPrefix_true _ "file://" rest) by reflexivity. reflexivity.
  - intros rest ->. unfold NewFileRegistryFromURL.
    rewrite (HasPrefix_true _ "/" rest) by reflexivity. reflexivity.
  - intros letter sep rest Hs Hletter Hsep.
    assert (Hwin : isWindowsAbsolutePath s = true).
    { apply isWindowsAbsolutePath_spec. exists letter, sep, rest. auto. }
    unfold NewFileRegistryFromURL. rewrite Hwin.
    destruct (strings_HasPrefix s "file://") eqn:Hfile.
    + exfalso. apply prefix_spec in Hfile as [r Hr]. rewrite Hr in Hs.
      discriminate Hs.
    + destruct (strings_HasPrefix s "/") eqn:Hslash; [|reflexivity].
      reflexivity.
  - intros Hfile Hslash Hwin. unfold NewFileRegistryFromURL.
    apply HasPrefix_false in Hfile, Hslash. rewrite Hfile, Hslash.
    destruct (isWindowsAbsolutePath s) eqn:Hw; [|reflexivity].
    apply isWindowsAbsolutePath_spec in Hw. contradiction.
Qed.

Section FileProps.
Context {H : Type} {HostOps : Host H}.

Lemma range_entries_filter (h : H) (modulesDir : string) (entries : list DirEntry) :
  range_entries h modulesDir entries =
  map entry_Name (List.filter (is_module h modulesDir) entries).
Proof.
  induction entries as [|e rest IH]; [reflexivity|].
  cbn [range_entries List.filter]. unfold is_module at 1.
  destruct (entry_IsDir e); cbn [andb]; [|exact IH].
  destruct (os_Stat h _); cbn [map]; [exact IH | rewrite IH; reflexivity].
Qed.

(** C6 (as amended): with a live context, [ListModules] answers
    [ErrListingNotSupported] when reading the [modules] directory under the
    root fails with an error for which [os.IsNotExist] holds; when it can be
    read, it answers with the names, in directory order, of exactly those
    entries that are directories and contain a [metadata.json]: a directory
    without it is left out, and an empty [modules] directory gives an empty
    list.  When reading [modules] fails in another way (a regular file in
    its place, for one), the answer is the generic error that wraps the
    failure, not [ErrListingNotSupported]. *)
Theorem ListModules_modules_dir (r : FileRegistry) (ctx : Context) (h : H) :
  ctx_Err ctx = None →
  let modulesDir := filepath_Join [root r; "modules"] in
  (∀ err, os_ReadDir h modulesDir = inl err → os_IsNotExist err = true →
     ListModules r ctx h = inl ErrListingNotSupported)
  ∧ (∀ entries, os_ReadDir h modulesDir = inr entries →
       ∃ names,
         ListModules r ctx h = inr names
         ∧ names = map entry_Name (List.filter (is_module h modulesDir) entries)
         ∧ (∀ name, In name names ↔
              ∃ e, In e entries ∧ entry_Name e = name ∧ entry_IsDir e = true
                   ∧ ∃ info, os_Stat h (filepath_Join
                                [modulesDir; name; "metadata.json"]) = inr info)
         ∧ (entries = [] → names = []))
  ∧ (∀ err, os_ReadDir h modulesDir = inl err → os_IsNotExist err = false →
       ListModules r ctx h
       = inl (WrapErr "bcr: failed to list modules: %w"
                      (of_foreign (os_chain err)))
       ∧ ListModules r ctx h ≠ inl ErrListingNotSupported
       ∧ errors_Is (WrapErr "bcr: failed to list modules: %w"
                            (of_foreign (os_chain err)))
                   var_ErrListingNotSupported = false).
Proof.
  intros Hlive modulesDir. split; [|split].
  - intros err Hrd Hne. unfold ListModules. rewrite Hlive. fold modulesDir.
    rewrite Hrd, Hne. reflexivity.
  - intros entries Hrd.
    exists (map entry_Name (List.filter (is_module h modulesDir) entries)).
    split; [|split; [reflexivity | split]].
    + unfold ListModules. rewrite Hlive. fold modulesDir. rewrite Hrd.
      rewrite range_entries_filter. reflexivity.
    + intros name. rewrite in_map_iff. split.
      * intros (e & Hname & Hin). apply filter_In in Hin as [Hin Hmod].
        exists e. unfold is_module in Hmod. apply andb_true_iff in Hmod as [Hdir Hst].
        rewrite Hname in Hst.
        destruct (os_Stat h _) as [|info] eqn:Hstat; [discriminate|]. eauto 6.
      * intros (e & Hin & Hname & Hdir & info & Hst). exists e. split; [exact Hname|].
        apply filter_In. split; [exact Hin|]. unfold is_module.
        rewrite Hdir, Hname, Hst. reflexivity.
    + intros ->. reflexivity.
  - intros err Hrd Hne.
    assert (Hres : ListModules r ctx h
                   = inl (WrapErr "bcr: failed to list modules: %w"
                                  (of_foreign (os_chain err)))).
    { unfold ListModules. rewrite Hlive. fold modulesDir.
      rewrite Hrd, Hne. reflexivity. }
    split; [exact Hres|]. split.
    + rewrite Hres. discriminate.
    + exact (errors_Is_of_foreign (os_chain err) var_ErrListingNotSupported).
Qed.

End FileProps.

(** Scenario E of the specification, and a directory without metadata. *)
Example ListModules_scenario_E :
  ListModules (HostOps := Scenario.ops) (NewFileRegistry "/none")
              context_Background Scenario.mirror = inl ErrListingNotSupported
  ∧ ListModules (HostOps := Scenario.ops) (NewFileRegistry "/bare")
                context_Background Scenario.mirror = inr []
  ∧ ListModules (HostOps := Scenario.ops) (NewFileRegistry "/r")
                context_Background Scenario.mirror = inr ["b"].
Proof. vm_compute. repeat split. Qed.

(** With entries two hours old, [Client.Metadata] sends one request and
    [Client.Source] none. *)
Example old_entry_by_kind :
  let w := mkWorld Scenario.old_cache [] in
  length (sent (fst (Client_Metadata (HostOps := Scenario.ops) Scenario.client
                       context_Background w "m"))) = 1%nat
  ∧ sent (fst (Client_Source (HostOps := Scenario.ops) Scenario.client
                 context_Background w "m" "1.0.0")) = [].
Proof. vm_compute. split; reflexivity. Qed.

(** The entry written two hours ago is not served under the one-hour
    time-to-live. *)
Lemma cache_get_freshness_witness :
  cache_get (HostOps := Scenario.ops) (newCache "/cache" 0) Scenario.old_cache
            "modules/m/metadata.json" true = None.
Proof.
  apply (proj1 (proj2 (cache_get_freshness (HostOps := Scenario.ops))))
    with (info := {| ModTime := 0 |}).
  - vm_compute. reflexivity.
  - vm_compute. reflexivity.
Defined.

(** A page that is not JSON: the call fails with the parse error and the
    cache directory stays empty. *)
Lemma cache_write_after_parse_witness :
  let w := mkWorld Scenario.empty_cache [] in
  let call := Client_Metadata (HostOps := Scenario.ops) Scenario.client
                context_Background w "bad" in
  snd call = inl (WrapErr "bcr: failed to parse metadata for %s: %w"
                          (LeafErr "invalid character"))
  ∧ host (fst call) = host w.
Proof.
  intros w call.
  destruct (proj2 (proj1 (cache_write_after_parse (HostOps := Scenario.ops))
              Scenario.client context_Background w (fst call) "bad" (snd call)
              (surjective_pairing call))
              (fst (fetch (HostOps := Scenario.ops) Scenario.client
                      context_Background w "modules/bad/metadata.json" "bad" ""))
              "<html>" (FLeaf "invalid character"))
    as (Hres & Hhost & _).
  - vm_compute. reflexivity.
  - vm_compute. reflexivity.
  - vm_compute. reflexivity.
  - split; [exact Hres | exact Hhost].
Defined.

(** A module whose metadata lists no version. *)
Lemma Client_Latest_none_available_witness :
  let w := mkWorld Scenario.empty_cache [] in
  isNotFound (match snd (Client_Latest (HostOps := Scenario.ops) Scenario.client
                           context_Background w "m") with
              | inl err => Some err
              | inr _ => None
              end) = true.
Proof.
  intros w.
  destruct (Client_Latest_none_available (HostOps := Scenario.ops)
              Scenario.client context_Background w
              (fst (Client_Metadata (HostOps := Scenario.ops) Scenario.client
                      context_Background w "m"))
              "m" empty_Metadata) as (Hres & Hnf & _).
  - vm_compute. reflexivity.
  - right. left. reflexivity.
  - rewrite Hres. exact Hnf.
Defined.

(** C6 as stated fails in two ways.  Where a regular file stands in place of
    [modules], there is no [modules] directory under the root, yet the answer
    is the generic wrapped error and not [ErrListingNotSupported]; and with
    a cancelled context the answer is the context's error even where
    [modules] does not exist at all. *)
Lemma ListModules_missing_dir_counterexample :
  (MemHost.node_is_dir <$> MemHost.files modules_is_a_file !! "/x/modules"
     = Some false
   ∧ ListModules (HostOps := Scenario.ops) (NewFileRegistry "/x")
       context_Background modules_is_a_file
     = inl (WrapErr "bcr: failed to list modules: %w"
                    (WrapErr "open" (LeafErr "not a directory")))
   ∧ ListModules (HostOps := Scenario.ops) (NewFileRegistry "/x")
       context_Background modules_is_a_file
     ≠ inl ErrListingNotSupported)
  ∧ (MemHost.files Scenario.mirror !! "/none/modules" = None
     ∧ ListModules (HostOps := Scenario.ops) (NewFileRegistry "/none")
         {| ctx_Err := Some (FLeaf "context canceled") |} Scenario.mirror
       = inl (LeafErr "context canceled")
     ∧ ListModules (HostOps := Scenario.ops) (NewFileRegistry "/none")
         {| ctx_Err := Some (FLeaf "context canceled") |} Scenario.mirror
       ≠ inl ErrListingNotSupported).
Proof.
  split; (split; [vm_compute; reflexivity|]);
    (split; [vm_compute; reflexivity | vm_compute; discriminate]).
Qed.

(** A root without a [modules] directory. *)
Lemma ListModules_modules_dir_witness :
  ListModules (HostOps := Scenario.ops) (NewFileRegistry "/none")
              context_Background Scenario.mirror = inl ErrListingNotSupported.
Proof.
  apply (proj1 (ListModules_modules_dir (HostOps := Scenario.ops)
                  (NewFileRegistry "/none") context_Background Scenario.mirror
                  eq_refl))
    with (err := MemHost.ENOENT).
  - vm_compute. reflexivity.
  - reflexivity.
Defined.

(** The transport error of a 500 response is not a not-found error. *)
Lemma isNotFound_unwraps_witness :
  isNotFound (Some (RequestErr "https://registry.test/modules/boom/metadata.json"
                               500 None)) = false.
Proof.
  apply (proj1 (proj2 (proj2 (proj2 (proj2
           (isNotFound_unwraps (HostOps := Scenario.ops))))))
           Scenario.client context_Background
           (mkWorld Scenario.empty_cache [])
           (fst (fetch (HostOps := Scenario.ops) Scenario.client
                   context_Background (mkWorld Scenario.empty_cache [])
                   "modules/boom/metadata.json" "boom" ""))
           "modules/boom/metadata.json" "boom" "").
  - vm_compute. reflexivity.
  - intros nf. discriminate.
Defined.

(** A lower-case drive letter with a forward slash. *)
Lemma NewFileRegistryFromURL_classifies_witness :
  NewFileRegistryFromURL "d:/registry" = Some {| root := "d:/registry" |}.
Proof.
  apply (proj1 (proj2 (proj2 (proj1 NewFileRegistryFromURL_classifies "d:/registry")))
           "d"%char "/"%char "registry").
  - reflexivity.
  - right. vm_compute. split; discriminate.
  - right. reflexivity.
Defined.

(** * Further properties *)

(** ** Version resolver *)

Lemma range_has_In (version : string) (vs : list string) :
  range_has version vs = true ↔ In version vs.
Proof.
  induction vs as [|v rest IH]; cbn [range_has In].
  - split; [discriminate | intros []].
  - destruct (String.eqb v version) eqn:Heq.
    + apply String.eqb_eq in Heq. split; auto.
    + apply String.eqb_neq in Heq. rewrite IH. split; [auto|].
      intros [Hv | Hin]; [contradiction | exact Hin].
Qed.

(** X1: [HasVersion] is true exactly on the elements of [Versions] of a
    non-nil Metadata, whatever their position or multiplicity. *)
Theorem HasVersion_member (m : option Metadata) (version : string) :
  HasVersion m version = true ↔ ∃ md, m = Some md ∧ In version (Versions md).
Proof.
  destruct m as [md|]; cbn [HasVersion].
  - rewrite range_has_In. split.
    + intros Hin. exists md. auto.
    + intros (md' & [= <-] & Hin). exact Hin.
  - split; [discriminate | intros (md & Hmd & _); discriminate].
Qed.

(** X2: a version is yanked exactly when the yank map has an entry for it,
    and [YankReason] is then that entry; a version that is not yanked has the
    empty reason, so a non-empty reason implies that the version is yanked
    (the converse fails: a yank entry may hold the empty reason). *)
Theorem YankReason_IsYanked (m : option Metadata) (version : string) :
  (IsYanked m version = true ↔
     ∃ md yv reason, m = Some md ∧ YankedVersions md = Some yv
                     ∧ yv !! version = Some reason
                     ∧ YankReason m version = reason)
  ∧ (IsYanked m version = false → YankReason m version = "")
  ∧ (YankReason m version ≠ "" → IsYanked m version = true)
  ∧ (∃ md, IsYanked (Some md) "1.0.0" = true ∧ YankReason (Some md) "1.0.0" = "").
Proof.
  assert (Hfalse : IsYanked m version = false → YankReason m version = "").
  { destruct m as [md|]; cbn [IsYanked YankReason]; [|reflexivity].
    destruct (YankedVersions md) as [yv|]; [|reflexivity].
    destruct (yv !! version); [discriminate | reflexivity]. }
  split; [|split; [exact Hfalse | split]].
  - destruct m as [md|]; cbn [IsYanked YankReason].
    + destruct (YankedVersions md) as [yv|] eqn:Hyv.
      * destruct (yv !! version) as [reason|] eqn:Hl.
        -- split; [|reflexivity]. intros _. exists md, yv, reason.
           rewrite Hyv. cbn. auto.
        -- split; [discriminate|].
           intros (md' & yv' & reason & [= <-] & Hyv' & Hl' & _).
           rewrite Hyv in Hyv'. injection Hyv' as <-. congruence.
      * split; [discriminate|].
        intros (md' & yv' & reason & [= <-] & Hyv' & _). congruence.
    + split; [discriminate|]. intros (md & yv & reason & Hm & _). discriminate.
  - intros Hne. destruct (IsYanked m version) eqn:Hy; [reflexivity|].
    contradiction Hne. apply Hfalse. reflexivity.
  - exists {| Versions := ["1.0.0"]; YankedVersions := Some {["1.0.0" := ""]};
              Maintainers := []; Homepage := ""; Repository := [] |}.
    split; reflexivity.
Qed.

Lemma stable_body_none (m : option Metadata) (x : string) :
  ¬ stable m x →
  (if IsYanked m x then None
   else if negb (IsPrerelease x) then Some x else None) = None.
Proof.
  intros Hns. unfold stable in Hns.
  destruct (IsYanked m x); [reflexivity|].
  destruct (IsPrerelease x); [reflexivity|].
  contradiction Hns. split; reflexivity.
Qed.

Lemma yanked_bodies_none (m : option Metadata) (vs : list string) :
  Forall (λ v, IsYanked m v = true) vs →
  Forall (λ x, (if IsYanked m x then None
                else if negb (IsPrerelease x) then Some x else None) = None) vs
  ∧ Forall (λ x, (if negb (IsYanked m x) then Some x else None) = None) vs.
Proof.
  intros Hall. split; (eapply Forall_impl; [exact Hall|]); intros x Hx;
    cbv beta in Hx; rewrite Hx; reflexivity.
Qed.

(** X3: [LatestStable] and [Latest] agree whenever [Latest] is not a
    prerelease, and whenever no version is both not yanked and not a
    prerelease; when they differ, [Latest] is a prerelease and
    [LatestStable] is a version that is neither yanked nor a prerelease. *)
Theorem LatestStable_agrees_with_Latest (m : Metadata) :
  (IsPrerelease (Latest (Some m)) = false →
     LatestStable (Some m) = Latest (Some m))
  ∧ (Forall (λ v, ¬ stable (Some m) v) (Versions m) →
       LatestStable (Some m) = Latest (Some m))
  ∧ (LatestStable (Some m) ≠ Latest (Some m) →
       IsPrerelease (Latest (Some m)) = true
       ∧ stable (Some m) (LatestStable (Some m))).
Proof.
  assert (Hfirst : IsPrerelease (Latest (Some m)) = false →
                   LatestStable (Some m) = Latest (Some m)).
  { rewrite LatestStable_unfold, Latest_unfold.
    destruct (scan_not_yanked (Some m) (Versions m))
      as [(u & (l1 & l2 & Heq & Hlive & Hrest) & Hres) | [Hall Hres]];
      cbv zeta in Hres; rewrite Hres.
    - intros Hpre. rewrite Heq at 1 2.
      rewrite (for_down_found _ l1 l2 u u); [reflexivity| |].
      + cbv beta in Hlive. rewrite Hlive, Hpre. reflexivity.
      + eapply Forall_impl; [exact Hrest|]. intros x Hx. cbv beta in Hx.
        destruct (IsYanked (Some m) x); [reflexivity|].
        contradiction Hx; reflexivity.
    - intros _. destruct (yanked_bodies_none (Some m) (Versions m) Hall) as [H1 _].
      rewrite (for_down_none _ _ H1). reflexivity. }
  assert (Hsecond : Forall (λ v, ¬ stable (Some m) v) (Versions m) →
                    LatestStable (Some m) = Latest (Some m)).
  { intros Hnone. rewrite LatestStable_unfold, Latest_unfold.
    rewrite for_down_none; [reflexivity|].
    eapply Forall_impl; [exact Hnone|]. intros x. apply stable_body_none. }
  split; [exact Hfirst | split; [exact Hsecond|]].
  intros Hne. split.
  - destruct (IsPrerelease (Latest (Some m))) eqn:Hp; [reflexivity|].
    contradiction Hne. apply Hfirst. reflexivity.
  - destruct (scan_stable (Some m) (Versions m))
      as [(v & Hv & Hres) | [Hnone _]].
    + cbv zeta in Hres. rewrite LatestStable_unfold, Hres.
      apply last_such_elem in Hv as [_ Hst]. exact Hst.
    + contradiction Hne. apply Hsecond, Hnone.
Qed.

(** A list where the two differ: the newest entry is a release candidate. *)
Lemma LatestStable_agrees_with_Latest_witness :
  let m := {| Versions := ["1.0.0"; "2.0.0-rc1"]; YankedVersions := None;
              Maintainers := []; Homepage := ""; Repository := [] |} in
  IsPrerelease (Latest (Some m)) = true ∧ stable (Some m) (LatestStable (Some m)).
Proof.
  intros m. apply (proj2 (proj2 (LatestStable_agrees_with_Latest m))).
  vm_compute. discriminate.
Defined.

(** X4: a non-empty result of [Latest] or of [LatestStable] is an element
    of [Versions]: [HasVersion] holds of it, and [IsYanked] does not. *)
Theorem Latest_is_listed (m : Metadata) :
  (Latest (Some m) ≠ "" →
     HasVersion (Some m) (Latest (Some m)) = true
     ∧ IsYanked (Some m) (Latest (Some m)) = false)
  ∧ (LatestStable (Some m) ≠ "" →
       HasVersion (Some m) (LatestStable (Some m)) = true
       ∧ IsYanked (Some m) (LatestStable (Some m)) = false).
Proof.
  cbn [HasVersion]. rewrite LatestStable_unfold, Latest_unfold.
  destruct (scan_not_yanked (Some m) (Versions m))
    as [(u & Hu & Hres) | [Hall Hres]]; cbv zeta in Hres; rewrite Hres.
  - apply last_such_elem in Hu as [Hin Hlive]. cbv beta in Hlive.
    split; [intros _; split; [apply range_has_In, Hin | exact Hlive]|].
    destruct (scan_stable (Some m) (Versions m))
      as [(v & Hv & Hres1) | [_ Hres1]]; cbv zeta in Hres1; rewrite Hres1.
    + apply last_such_elem in Hv as [Hinv [Hy _]].
      intros _. split; [apply range_has_In, Hinv | exact Hy].
    + intros _. split; [apply range_has_In, Hin | exact Hlive].
  - split; [intros Hne; contradiction Hne; reflexivity|].
    destruct (yanked_bodies_none (Some m) (Versions m) Hall) as [H1 _].
    rewrite (for_down_none _ _ H1). intros Hne. contradiction Hne; reflexivity.
Qed.

(** A Metadata on which both results are non-empty. *)
Lemma Latest_is_listed_witness :
  let m := {| Versions := ["1.0.0"; "1.1.0"; "2.0.0"];
              YankedVersions := Some {["2.0.0" := "broken"]};
              Maintainers := []; Homepage := ""; Repository := [] |} in
  HasVersion (Some m) (Latest (Some m)) = true
  ∧ IsYanked (Some m) (Latest (Some m)) = false.
Proof.
  intros m. apply (proj1 (Latest_is_listed m)). vm_compute. discriminate.
Defined.

Lemma Latest_with_version (m : Metadata) (v : string) :
  Latest (Some (with_version m v)) =
  match for_down (λ x, if negb (IsYanked (Some m) x) then Some x else None)
                 (Versions m ++ [v]) (length (Versions m ++ [v])) with
  | Some r => r
  | None => ""
  end.
Proof. rewrite Latest_unfold. reflexivity. Qed.

Lemma LatestStable_with_version (m : Metadata) (v : string) :
  LatestStable (Some (with_version m v)) =
  match for_down (λ x, if IsYanked (Some m) x then None
                       else if negb (IsPrerelease x) then Some x else None)
                 (Versions m ++ [v]) (length (Versions m ++ [v])) with
  | Some r => r
  | None =>
      match for_down (λ x, if negb (IsYanked (Some m) x) then Some x else None)
                     (Versions m ++ [v]) (length (Versions m ++ [v])) with
      | Some r => r
      | None => ""
      end
  end.
Proof. rewrite LatestStable_unfold. reflexivity. Qed.

(** X5: listing one more version [v] at the end of [Versions].  If [v] is
    yanked, [Latest] and [LatestStable] stay as they were; if it is not,
    [Latest] becomes [v].  [LatestStable] becomes [v] when [v] is not a
    prerelease, or when it is one and no earlier version is both not yanked
    and not a prerelease; it stays as it was when [v] is a prerelease and
    such an earlier version exists. *)
Theorem Latest_after_append (m : Metadata) (v : string) :
  Latest (Some (with_version m v))
    = (if IsYanked (Some m) v then Latest (Some m) else v)
  ∧ (IsYanked (Some m) v = true →
       LatestStable (Some (with_version m v)) = LatestStable (Some m))
  ∧ (stable (Some m) v → LatestStable (Some (with_version m v)) = v)
  ∧ (IsYanked (Some m) v = false → IsPrerelease v = true →
       ((∃ u, In u (Versions m) ∧ stable (Some m) u) →
          LatestStable (Some (with_version m v)) = LatestStable (Some m))
       ∧ (Forall (λ u, ¬ stable (Some m) u) (Versions m) →
            LatestStable (Some (with_version m v)) = v)).
Proof.
  rewrite Latest_with_version, LatestStable_with_version.
  rewrite LatestStable_unfold, Latest_unfold, !for_down_snoc.
  split; [|split; [|split]].
  - destruct (IsYanked (Some m) v); reflexivity.
  - intros Hy. rewrite Hy. reflexivity.
  - intros [Hy Hp]. rewrite Hy, Hp. reflexivity.
  - intros Hy Hp. rewrite Hy, Hp. cbn [negb]. split.
    + intros (u & Hin & Hst).
      destruct (scan_stable (Some m) (Versions m))
        as [(x & _ & Hres) | [Hnone _]].
      * cbv zeta in Hres. rewrite Hres. reflexivity.
      * rewrite List.Forall_forall in Hnone. contradiction (Hnone u Hin).
    + intros Hnone. rewrite for_down_none; [reflexivity|].
      eapply Forall_impl; [exact Hnone|]. intros x. apply stable_body_none.
Qed.

(** A release candidate listed after a stable version. *)
Lemma Latest_after_append_witness :
  let m := {| Versions := ["1.0.0"]; YankedVersions := None;
              Maintainers := []; Homepage := ""; Repository := [] |} in
  LatestStable (Some (with_version m "2.0.0-rc1")) = LatestStable (Some m).
Proof.
  intros m.
  apply (proj1 (proj2 (proj2 (proj2 (Latest_after_append m "2.0.0-rc1")))
                 eq_refl eq_refl)).
  exists "1.0.0". split; [left; reflexivity | split; reflexivity].
Defined.

Lemma append_assoc (a b c : string) : (a +:+ b) +:+ c = a +:+ b +:+ c.
Proof.
  induction a as [|x a IH]; [reflexivity|].
  rewrite !append_String, IH. reflexivity.
Qed.

(** X6: the prerelease test is a substring test, so a string that contains
    a prerelease version string is itself classified as a prerelease,
    whatever surrounds it. *)
Theorem IsPrerelease_embedded (v a b : string) :
  IsPrerelease v = true → IsPrerelease (a +:+ v +:+ b) = true.
Proof.
  unfold IsPrerelease. rewrite !any_indicator_spec.
  intros (i & Hi & Hc). exists i. split; [exact Hi|].
  apply strings_Contains_spec in Hc as (a' & b' & ->).
  apply strings_Contains_spec. exists (a +:+ a'), (b' +:+ b).
  rewrite !append_assoc. reflexivity.
Qed.

(** A build suffix after a beta marker. *)
Lemma IsPrerelease_embedded_witness :
  IsPrerelease ("v" +:+ "1.0.0-beta" +:+ ".build7") = true.
Proof. apply IsPrerelease_embedded. reflexivity. Defined.

(** ** Construction *)





(** ** Remote backend *)

Section RemoteProps.
Context {H : Type} {HostOps : Host H}.

Lemma fetch_cases (c : Client) ctx (w : World H) urlPath module version :
  (∃ e, url_JoinPath (baseURL c) urlPath = inl e
        ∧ fetch c ctx w urlPath module version
          = (w, inl (WrapErr "bcr: invalid URL: %w" (of_foreign e))))
  ∨ (∃ u e, url_JoinPath (baseURL c) urlPath = inr u
            ∧ http_NewRequest ctx u = Some e
            ∧ fetch c ctx w urlPath module version
              = (w, inl (WrapErr "bcr: failed to create request: %w"
                                 (of_foreign e))))
  ∨ (∃ u r, url_JoinPath (baseURL c) urlPath = inr u
            ∧ http_NewRequest ctx u = None
            ∧ fetch c ctx w urlPath module version
              = (mkWorld (host w) (sent w ++ [request_of c ctx u]), r)
            ∧ match http_Do (request_of c ctx u) with
              | DoFailed e => r = inl (RequestErr u 0 (Some (of_foreign e)))
              | Responded status body =>
                  if status =? 404 then
                    r = inl (NotFoundErr {| NF_Module := module;
                                            NF_Version := version;
                                            NF_StatusCode := 404 |})
                  else if status =? 200 then
                    match body with
                    | inl e =>
                        r = inl (RequestErr u 0
                               (Some (WrapErr "failed to read response: %w"
                                              (of_foreign e))))
                    | inr data => r = inr data
                    end
                  else r = inl (RequestErr u status None)
              end).
Proof.
  unfold fetch.
  destruct (url_JoinPath (baseURL c) urlPath) as [e|u] eqn:Hu.
  { left. exists e. split; reflexivity. }
  destruct (http_NewRequest ctx u) as [e|] eqn:Hreq.
  { right. left. exists u, e. repeat split. exact Hreq. }
  right. right. fold (request_of c ctx u).
  destruct (http_Do (request_of c ctx u)) as [e|status body] eqn:Hdo.
  { exists u. eexists. split; [reflexivity|]. split; [exact Hreq|].
    split; [reflexivity | rewrite Hdo; reflexivity]. }
  destruct (status =? 404) eqn:H404.
  { exists u. eexists. split; [reflexivity|]. split; [exact Hreq|].
    split; [reflexivity|]. rewrite Hdo, H404.
    apply Z.eqb_eq in H404. subst status. reflexivity. }
  destruct (status =? 200) eqn:H200; cbn [negb].
  - destruct body; exists u; eexists; (split; [reflexivity|]);
      (split; [exact Hreq|]);
      (split; [reflexivity | rewrite Hdo, H404, H200; reflexivity]).
  - exists u. eexists. split; [reflexivity|]. split; [exact Hreq|].
    split; [reflexivity | rewrite Hdo, H404, H200; reflexivity].
Qed.

(** The outcomes of [fetch], first part. *)
Lemma fetch_outcomes_core (c : Client) ctx (w w' : World H) urlPath module version r :
  fetch c ctx w urlPath module version = (w', r) →
  host w' = host w
  ∧ (sent w' = sent w
     ∨ ∃ u, url_JoinPath (baseURL c) urlPath = inr u
            ∧ sent w' = sent w ++ [request_of c ctx u])
  ∧ (∀ data, r = inr data ↔
       ∃ u, url_JoinPath (baseURL c) urlPath = inr u
            ∧ http_NewRequest ctx u = None
            ∧ http_Do (request_of c ctx u) = Responded 200 (inr data))
  ∧ (isNotFound (error_of r) = true ↔
       ∃ u body, url_JoinPath (baseURL c) urlPath = inr u
                 ∧ http_NewRequest ctx u = None
                 ∧ http_Do (request_of c ctx u) = Responded 404 body)
  ∧ (isNotFound (error_of r) = true →
       r = inl (NotFoundErr {| NF_Module := module; NF_Version := version;
                               NF_StatusCode := 404 |})).
Proof.
  intros Hf.
  destruct (fetch_cases c ctx w urlPath module version)
    as [(e & Hu & Hres) | [(u & e & Hu & Hreq & Hres) | (u & r0 & Hu & Hreq & Hres & Hdo)]];
    rewrite Hres in Hf; injection Hf as <- <-.
  - split; [reflexivity|]. split; [left; reflexivity|].
    cbn [error_of isNotFound isNotFound_nonnil same_error].
    pose proof (isNotFound_of_foreign e) as He. cbn [isNotFound] in He.
    rewrite He. split; [|split; [|discriminate]].
    + intros data. split; [discriminate|]. intros (u & Hu' & _). congruence.
    + split; [discriminate|]. intros (u & body & Hu' & _). congruence.
  - split; [reflexivity|]. split; [left; reflexivity|].
    cbn [error_of isNotFound isNotFound_nonnil same_error].
    pose proof (isNotFound_of_foreign e) as He. cbn [isNotFound] in He.
    rewrite He. split; [|split; [|discriminate]].
    + intros data. split; [discriminate|]. intros (u' & Hu' & Hreq' & _). congruence.
    + split; [discriminate|]. intros (u' & body & Hu' & Hreq' & _). congruence.
  - split; [reflexivity|]. split; [right; eauto|].
    assert (Hsame : ∀ u', url_JoinPath (baseURL c) urlPath = inr u' → u' = u)
      by (intros u' Hu'; congruence).
    destruct (http_Do (request_of c ctx u)) as [e|status body] eqn:Hd.
    { subst r0. cbn [error_of isNotFound isNotFound_nonnil same_error].
      pose proof (isNotFound_of_foreign e) as He. cbn [isNotFound] in He.
      rewrite He. split; [|split; [|discriminate]].
      - intros data. split; [discriminate|].
        intros (u' & Hu' & _ & Hd'). apply Hsame in Hu'. subst u'. congruence.
      - split; [discriminate|].
        intros (u' & body & Hu' & _ & Hd'). apply Hsame in Hu'. subst u'. congruence. }
    destruct (status =? 404) eqn:H404.
    { apply Z.eqb_eq in H404. subst status r0. split; [|split; [|reflexivity]].
      - intros data. split; [discriminate|].
        intros (u' & Hu' & _ & Hd'). apply Hsame in Hu'. subst u'.
        rewrite Hd in Hd'. discriminate.
      - split; [|reflexivity]. intros _. exists u, body. auto. }
    apply Z.eqb_neq in H404.
    destruct (status =? 200) eqn:H200.
    + apply Z.eqb_eq in H200. subst status.
      destruct body as [e|data0]; subst r0;
        cbn [error_of isNotFound isNotFound_nonnil same_error].
      * pose proof (isNotFound_of_foreign e) as He. cbn [isNotFound] in He.
        rewrite He. split; [|split; [|discriminate]].
        -- intros data. split; [discriminate|].
           intros (u' & Hu' & _ & Hd'). apply Hsame in Hu'. subst u'.
           rewrite Hd in Hd'. discriminate.
        -- split; [discriminate|].
           intros (u' & body & Hu' & _ & Hd'). apply Hsame in Hu'. subst u'.
           rewrite Hd in Hd'. discriminate.
      * split; [|split; [|discriminate]].
        -- intros data. split.
           ++ intros [= <-]. exists u. auto.
           ++ intros (u' & Hu' & _ & Hd'). apply Hsame in Hu'. subst u'.
              rewrite Hd in Hd'. injection Hd' as <-. reflexivity.
        -- split; [discriminate|].
           intros (u' & body & Hu' & _ & Hd'). apply Hsame in Hu'. subst u'.
           rewrite Hd in Hd'. discriminate.
    + apply Z.eqb_neq in H200. subst r0.
      cbn [error_of isNotFound isNotFound_nonnil same_error].
      split; [|split; [|discriminate]].
      * intros data. split; [discriminate|].
        intros (u' & Hu' & _ & Hd'). apply Hsame in Hu'. subst u'.
        rewrite Hd in Hd'. injection Hd' as Hs _. contradiction.
      * split; [discriminate|].
        intros (u' & body' & Hu' & _ & Hd'). apply Hsame in Hu'. subst u'.
        rewrite Hd in Hd'. injection Hd' as Hs _. contradiction.
Qed.

(** X8: [fetch] never changes the host's files and hands at most one
    request to the HTTP client: none when the URL or the request cannot be
    built, exactly one otherwise.  It succeeds exactly on a 200 response
    whose body can be read, and then returns that body; its error is a
    not-found error exactly on a 404 response, and is then the
    [*NotFoundError] with the module and version it was called for and
    status 404. *)
Theorem fetch_outcomes (c : Client) ctx (w w' : World H) urlPath module version r :
  fetch c ctx w urlPath module version = (w', r) →
  host w' = host w
  ∧ (sent w' = sent w
     ∨ ∃ u, url_JoinPath (baseURL c) urlPath = inr u
            ∧ sent w' = sent w ++ [request_of c ctx u])
  ∧ (∀ data, r = inr data ↔
       ∃ u, url_JoinPath (baseURL c) urlPath = inr u
            ∧ http_NewRequest ctx u = None
            ∧ http_Do (request_of c ctx u) = Responded 200 (inr data))
  ∧ (isNotFound (error_of r) = true ↔
       ∃ u body, url_JoinPath (baseURL c) urlPath = inr u
                 ∧ http_NewRequest ctx u = None
                 ∧ http_Do (request_of c ctx u) = Responded 404 body)
  ∧ (isNotFound (error_of r) = true →
       r = inl (NotFoundErr {| NF_Module := module; NF_Version := version;
                               NF_StatusCode := 404 |}))
  ∧ (∀ e, url_JoinPath (baseURL c) urlPath = inl e → sent w' = sent w)
  ∧ (∀ u e, url_JoinPath (baseURL c) urlPath = inr u →
            http_NewRequest ctx u = Some e → sent w' = sent w)
  ∧ (∀ u, url_JoinPath (baseURL c) urlPath = inr u →
          http_NewRequest ctx u = None →
          sent w' = sent w ++ [request_of c ctx u]).
Proof.
  intros Hf.
  destruct (fetch_outcomes_core c ctx w w' urlPath module version r Hf)
    as (H1 & H2 & H3 & H4 & H5).
  split; [exact H1|]. split; [exact H2|]. split; [exact H3|].
  split; [exact H4|]. split; [exact H5|].
  destruct (fetch_cases c ctx w urlPath module version)
    as [(e & Hu & Hres) | [(u & e & Hu & Hreq & Hres) | (u & r0 & Hu & Hreq & Hres & _)]];
    rewrite Hres in Hf; injection Hf as <- <-; cbn [sent].
  - split; [reflexivity|]. split; intros; congruence.
  - split; [intros; congruence|]. split; [reflexivity|]. intros; congruence.
  - split; [intros; congruence|]. split; [intros; congruence|].
    intros u' Hu' _. congruence.
Qed.

End RemoteProps.

(** A 200 response: the body is returned and the files are untouched. *)
Lemma fetch_outcomes_witness :
  let w := mkWorld Scenario.empty_cache [] in
  let call := fetch (HostOps := Scenario.ops) Scenario.client context_Background
                w "modules/m/metadata.json" "m" "" in
  host (fst call) = host w ∧ isNotFound (error_of (snd call)) = false.
Proof.
  intros w call.
  destruct (fetch_outcomes (HostOps := Scenario.ops) Scenario.client
              context_Background w (fst call) "modules/m/metadata.json" "m" ""
              (snd call) (surjective_pairing call)) as (Hhost & _).
  split; [exact Hhost | vm_compute; reflexivity].
Defined.

Section ClientMore.
Context {H : Type} {HostOps : Host H}.

Lemma fetch_sent_prefix (c : Client) ctx (w : World H) urlPath module version :
  ∃ l, sent (fst (fetch c ctx w urlPath module version)) = sent w ++ l
       ∧ (length l ≤ 1)%nat
       ∧ Forall (λ q, req_ctx q = ctx ∧ req_UserAgent q = userAgent c
                      ∧ req_Accept q = "application/json") l.
Proof.
  destruct (fetch_cases c ctx w urlPath module version)
    as [(e & _ & Hres) | [(u & e & _ & _ & Hres) | (u & r & _ & _ & Hres & _)]];
    rewrite Hres; cbn [fst sent].
  - exists []. rewrite app_nil_r. repeat split; [cbn; lia | constructor].
  - exists []. rewrite app_nil_r. repeat split; [cbn; lia | constructor].
  - exists [request_of c ctx u]. repeat split; [cbn; lia|].
    constructor; [|constructor]. repeat split.
Qed.

Lemma cache_store_sent (c : Client) (w : World H) key data :
  sent (cache_store c w key data) = sent w.
Proof. unfold cache_store. destruct (c_cache c); reflexivity. Qed.

Lemma cache_store_no_cache (c : Client) (w : World H) key data :
  c_cache c = None → cache_store c w key data = w.
Proof. intros Hc. unfold cache_store. rewrite Hc. reflexivity. Qed.

(** X9: one call of [Client.Metadata], [Client.Source] or
    [Client.ModuleFile] hands at most one request to the HTTP client, and
    every request carries the call's context, the client's user agent and
    the JSON accept header; a client without cache never changes the host's
    files. *)
Theorem Client_calls_one_request (c : Client) ctx (w : World H) module version :
  let bounded (w' : World H) :=
    (∃ l, sent w' = sent w ++ l ∧ (length l ≤ 1)%nat
          ∧ Forall (λ q, req_ctx q = ctx ∧ req_UserAgent q = userAgent c
                         ∧ req_Accept q = "application/json") l)
    ∧ (c_cache c = None → host w' = host w) in
  bounded (fst (Client_Metadata c ctx w module))
  ∧ bounded (fst (Client_Source c ctx w module version))
  ∧ bounded (fst (Client_ModuleFile c ctx w module version)).
Proof.
  intros bounded.
  assert (Hhit : bounded w).
  { split; [|reflexivity]. exists []. rewrite app_nil_r.
    repeat split; [cbn; lia | constructor]. }
  assert (Hfetch : ∀ urlPath m v,
            bounded (fst (fetch c ctx w urlPath m v))).
  { intros urlPath m v. split; [apply fetch_sent_prefix|].
    intros _. apply fetch_host. }
  assert (Hstore : ∀ urlPath m v data,
            bounded (cache_store c (fst (fetch c ctx w urlPath m v)) urlPath data)).
  { intros urlPath m v data. split.
    - rewrite cache_store_sent. apply fetch_sent_prefix.
    - intros Hc. rewrite cache_store_no_cache by exact Hc. apply fetch_host. }
  split; [|split].
  - unfold Client_Metadata.
    set (key := path_Join ["modules"; module; "metadata.json"]).
    destruct (cache_hit c (host w) key true) as [d|];
      [destruct (json_Unmarshal_Metadata d); [|exact Hhit]|];
      (specialize (Hfetch key module ""); specialize (Hstore key module "");
       destruct (fetch c ctx w key module "") as [w1 [err|data]];
       [exact Hfetch|];
       destruct (json_Unmarshal_Metadata data); [exact Hfetch | apply Hstore]).
  - unfold Client_Source.
    set (key := path_Join ["modules"; module; version; "source.json"]).
    destruct (cache_hit c (host w) key false) as [d|];
      [destruct (json_Unmarshal_Source d); [|exact Hhit]|];
      (specialize (Hfetch key module version);
       specialize (Hstore key module version);
       destruct (fetch c ctx w key module version) as [w1 [err|data]];
       [exact Hfetch|];
       destruct (json_Unmarshal_Source data); [exact Hfetch | apply Hstore]).
  - unfold Client_ModuleFile.
    set (key := path_Join ["modules"; module; version; "MODULE.bazel"]).
    destruct (cache_hit c (host w) key false) as [d|]; [exact Hhit|].
    specialize (Hfetch key module version).
    specialize (Hstore key module version).
    destruct (fetch c ctx w key module version) as [w1 [err|data]];
      [exact Hfetch | apply Hstore].
Qed.

(** X10: [Client.Exists] answers as [Client.Metadata] fares: true exactly
    when the metadata call succeeds, false exactly when it fails with a
    not-found error, and otherwise the metadata call's own error, which is
    then never a not-found error.  It leaves the world as the metadata call
    does. *)
Theorem Client_Exists_outcomes (c : Client) ctx (w w' : World H) module r :
  Client_Exists c ctx w module = (w', r) →
  ∃ rm, Client_Metadata c ctx w module = (w', rm)
        ∧ (r = inr true ↔ ∃ meta, rm = inr meta)
        ∧ (r = inr false ↔ ∃ err, rm = inl err ∧ isNotFound (Some err) = true)
        ∧ (∀ err, r = inl err ↔ rm = inl err ∧ isNotFound (Some err) = false).
Proof.
  unfold Client_Exists.
  destruct (Client_Metadata c ctx w module) as [w1 [err|meta]].
  - destruct (isNotFound (Some err)) eqn:Hnf; intros [= <- <-];
      exists (inl err); (split; [reflexivity|]); split; [| split | | split].
    + split; [discriminate | intros (m & Hm); discriminate].
    + split; [eauto | reflexivity].
    + intros e. split; [discriminate|]. intros [[= <-] He]. congruence.
    + split; [discriminate | intros (m & Hm); discriminate].
    + split; [discriminate|]. intros (e & [= <-] & He). congruence.
    + intros e. split.
      * intros [= <-]. auto.
      * intros [[= <-] _]. reflexivity.
  - intros [= <- <-]. exists (inr meta). split; [reflexivity|]. split; [|split].
    + split; [eauto | reflexivity].
    + split; [discriminate | intros (e & He & _); discriminate].
    + intros e. split; [discriminate | intros [He _]; discriminate].
Qed.

(** X11: [Client.VersionExists] is true exactly when the metadata call
    succeeds and the version is listed in the fetched [Versions], yanked or
    not; it is false when the module is not found; and whenever it answers
    true, [Client.Exists] on the same world answers true as well. *)
Theorem Client_VersionExists_outcomes (c : Client) ctx (w w' : World H)
    module version r :
  Client_VersionExists c ctx w module version = (w', r) →
  (r = inr true ↔
     ∃ meta, Client_Metadata c ctx w module = (w', inr meta)
             ∧ In version (Versions meta))
  ∧ ((∃ err, Client_Metadata c ctx w module = (w', inl err)
             ∧ isNotFound (Some err) = true) → r = inr false)
  ∧ (r = inr true → Client_Exists c ctx w module = (w', inr true))
  ∧ (∀ err, r = inl err → isNotFound (Some err) = false).
Proof.
  unfold Client_VersionExists, Client_Exists.
  destruct (Client_Metadata c ctx w module) as [w1 [err|meta]].
  - destruct (isNotFound (Some err)) eqn:Hnf; intros [= <- <-];
      (split; [split; [discriminate | intros (m & [=] & _)]|]);
      (split; [|split; [discriminate|]]).
    + intros _. reflexivity.
    + intros e [=].
    + intros (e & [= <-] & He). congruence.
    + intros e [= <-]. exact Hnf.
  - intros [= <- <-]. split; [|split; [|split]].
    + split.
      * intros [= Hv]. exists meta. split; [reflexivity|].
        apply range_has_In. exact Hv.
      * intros (m & [= <-] & Hin). cbn [HasVersion].
        apply range_has_In in Hin. rewrite Hin. reflexivity.
    + intros (e & [=] & _).
    + intros _. reflexivity.
    + intros e [=].
Qed.

(** X12: when [Client.Latest] succeeds, the version it returns is not
    empty, is listed in the fetched Metadata and is not yanked there; when it
    fails, either the metadata call failed with that error or the metadata
    call succeeded and the error is the [*NotFoundError] of the module. *)
Theorem Client_Latest_outcomes (c : Client) ctx (w w' : World H) module r :
  Client_Latest c ctx w module = (w', r) →
  (∀ v, r = inr v →
     v ≠ ""
     ∧ ∃ meta, Client_Metadata c ctx w module = (w', inr meta)
               ∧ v = Latest (Some meta)
               ∧ In v (Versions meta)
               ∧ IsYanked (Some meta) v = false)
  ∧ (∀ err, r = inl err →
       Client_Metadata c ctx w module = (w', inl err)
       ∨ ∃ meta, Client_Metadata c ctx w module = (w', inr meta)
                 ∧ Latest (Some meta) = ""
                 ∧ err = NotFoundErr {| NF_Module := module; NF_Version := "";
                                        NF_StatusCode := 0 |}).
Proof.
  unfold Client_Latest.
  destruct (Client_Metadata c ctx w module) as [w1 [err|meta]].
  - intros [= <- <-]. split; [intros v [=]|]. intros e [= <-]. left. reflexivity.
  - assert (Hlisted : Latest (Some meta) ≠ "" →
              In (Latest (Some meta)) (Versions meta)
              ∧ IsYanked (Some meta) (Latest (Some meta)) = false).
    { rewrite Latest_unfold.
      destruct (scan_not_yanked (Some meta) (Versions meta))
        as [(u & Hu & Hres) | [_ Hres]]; cbv zeta in Hres; rewrite Hres.
      - intros _. apply last_such_elem in Hu. exact Hu.
      - intros Hne. contradiction Hne; reflexivity. }
    cbv zeta. destruct (String.eqb (Latest (Some meta)) "") eqn:Hl;
      intros [= <- <-].
    + apply String.eqb_eq in Hl. split; [intros v [=]|].
      intros e [= <-]. right. exists meta. auto.
    + apply String.eqb_neq in Hl. split; [|intros e [=]].
      intros v [= <-]. split; [exact Hl|]. exists meta.
      split; [reflexivity|]. split; [reflexivity|]. exact (Hlisted Hl).
Qed.

End ClientMore.

Section ClientListing.
Context {H : Type} {HostOps : Host H} {Decoder : IndexDecoder}.

Lemma fetch_error_not_sentinel (c : Client) ctx (w w1 : World H)
    urlPath module version err :
  fetch c ctx w urlPath module version = (w1, inl err) →
  ∀ v, err ≠ SentinelErr v.
Proof.
  intros Hf v.
  destruct (fetch_cases c ctx w urlPath module version)
    as [(e & _ & Hres) | [(u & e & _ & _ & Hres) | (u & r & _ & _ & Hres & Hdo)]];
    rewrite Hres in Hf.
  - injection Hf as _ <-. discriminate.
  - injection Hf as _ <-. discriminate.
  - injection Hf as _ ->.
    destruct (http_Do (request_of c ctx u)) as [e|status body];
      [injection Hdo as ->; discriminate|].
    destruct (status =? 404); [injection Hdo as ->; discriminate|].
    destruct (status =? 200); [|injection Hdo as ->; discriminate].
    destruct body; [injection Hdo as ->; discriminate | discriminate Hdo].
Qed.

(** X13: [Client.ListModules] never touches the host's files (the index is
    not cached), never returns a not-found error, and answers
    [ErrListingNotSupported] exactly when fetching [modules/index.json]
    fails with a not-found error, that is on a 404; it returns a list of
    names exactly when the fetch succeeds and the body decodes to it. *)
Theorem Client_ListModules_outcomes (c : Client) ctx (w w' : World H) r :
  Client_ListModules c ctx w = (w', r) →
  let fetched := fetch c ctx w (path_Join ["modules"; "index.json"]) "" "" in
  host w' = host w
  ∧ (∀ err, r = inl err → isNotFound (Some err) = false)
  ∧ (r = inl ErrListingNotSupported ↔
       isNotFound (error_of (snd fetched)) = true)
  ∧ (∀ modules, r = inr modules ↔
       ∃ data, snd fetched = inr data
               ∧ json_Unmarshal_strings data = inr modules).
Proof.
  unfold Client_ListModules. cbv zeta.
  destruct (fetch c ctx w (path_Join ["modules"; "index.json"]) "" "")
    as [w1 [err|data]] eqn:Hf; cbn [snd error_of].
  - pose proof (fetch_host_eq c ctx w w1 _ _ _ _ Hf) as Hh.
    pose proof (fetch_error_not_sentinel c ctx w w1 _ _ _ err Hf) as Hns.
    destruct (isNotFound (Some err)) eqn:Hnf; intros [= <- <-];
      (split; [exact Hh|]); (split; [|split]).
    + intros e [= <-]. reflexivity.
    + split; reflexivity.
    + intros modules. split; [discriminate | intros (d & [=] & _)].
    + intros e [= <-]. exact Hnf.
    + split; [|discriminate]. intros [= ->].
      contradiction (Hns var_ErrListingNotSupported). reflexivity.
    + intros modules. split; [discriminate | intros (d & [=] & _)].
  - pose proof (fetch_host_eq c ctx w w1 _ _ _ _ Hf) as Hh.
    destruct (json_Unmarshal_strings data) as [e|modules] eqn:Hjs;
      intros [= <- <-]; (split; [exact Hh|]); (split; [|split]).
    + intros err [= <-]. exact (isNotFound_of_foreign e).
    + split; discriminate.
    + intros modules. split; [discriminate|]. intros (d & [= <-] & Hd). congruence.
    + intros err [=].
    + split; discriminate.
    + intros ms. split.
      * intros [= <-]. exists data. auto.
      * intros (d & [= <-] & Hd). congruence.
Qed.

End ClientListing.

(** A registry without index: listing is not supported. *)
Lemma Client_ListModules_outcomes_witness :
  let w := mkWorld Scenario.empty_cache [] in
  let call := Client_ListModules (HostOps := Scenario.ops)
                (Decoder := empty_index_decoder)
                Scenario.client context_Background w in
  snd call = inl ErrListingNotSupported ∧ host (fst call) = host w.
Proof.
  intros w call.
  destruct (Client_ListModules_outcomes (HostOps := Scenario.ops)
              (Decoder := empty_index_decoder) Scenario.client
              context_Background w (fst call) (snd call)
              (surjective_pairing call)) as (Hhost & _ & Hlisting & _).
  split; [|exact Hhost]. apply Hlisting. vm_compute. reflexivity.
Defined.

Lemma range_yield_collect (stop : string → bool) (vs : list string)
    (seen : list (string * option error)) :
  range_yield (collect_until stop) vs seen =
  seen ++ map (λ v, (v, None)) (upto stop vs).
Proof.
  revert seen. induction vs as [|v rest IH]; intros seen.
  - cbn. rewrite app_nil_r. reflexivity.
  - cbn [range_yield upto collect_until]. destruct (stop v); cbn [negb map].
    + reflexivity.
    + rewrite IH, <- app_assoc. reflexivity.
Qed.

Lemma upto_prefix (stop : string → bool) (vs : list string) :
  ∃ rest, vs = upto stop vs ++ rest.
Proof.
  induction vs as [|v tl [rest IH]]; [exists []; reflexivity|].
  cbn [upto]. destruct (stop v).
  - exists tl. reflexivity.
  - exists rest. cbn. rewrite <- IH. reflexivity.
Qed.

Lemma upto_never (vs : list string) : upto (λ _, false) vs = vs.
Proof. induction vs as [|v tl IH]; [reflexivity|]. cbn. rewrite IH. reflexivity. Qed.

Section ClientSequence.
Context {H : Type} {HostOps : Host H}.

(** X14: consuming [Client.Versions] makes one metadata call.  If it
    fails, the consumer is given the single pair of the empty string and the
    error, and nothing else; if it succeeds, the consumer is given the
    versions with a nil error, in stored order and without gaps, up to and
    including the first one at which it stops: all of them if it never
    stops. *)
Theorem Client_Versions_sequence (c : Client) ctx (w : World H) module
    (stop : string → bool) (seen : list (string * option error)) :
  (∀ w1 err, Client_Metadata c ctx w module = (w1, inl err) →
     Client_Versions c ctx module (collect_until stop) w seen
     = (w1, seen ++ [("", Some err)]))
  ∧ (∀ w1 meta, Client_Metadata c ctx w module = (w1, inr meta) →
       Client_Versions c ctx module (collect_until stop) w seen
       = (w1, seen ++ map (λ v, (v, None)) (upto stop (Versions meta)))
       ∧ (∃ rest, Versions meta = upto stop (Versions meta) ++ rest)
       ∧ Client_Versions c ctx module (collect_until (λ _, false)) w seen
         = (w1, seen ++ map (λ v, (v, None)) (Versions meta))).
Proof.
  split.
  - intros w1 err Hm. unfold Client_Versions. rewrite Hm. reflexivity.
  - intros w1 meta Hm. unfold Client_Versions. rewrite Hm.
    rewrite !range_yield_collect, upto_never.
    split; [reflexivity|]. split; [apply upto_prefix | reflexivity].
Qed.

(** A cache miss is transparent, first part. *)
Lemma cache_miss_transparent_core (c : Client) ctx (w : World H) module version :
  (Metadata_cached c (host w) (path_Join ["modules"; module; "metadata.json"])
     = None →
   snd (Client_Metadata c ctx w module)
     = snd (Client_Metadata (without_cache c) ctx w module)
   ∧ sent (fst (Client_Metadata c ctx w module))
     = sent (fst (Client_Metadata (without_cache c) ctx w module)))
  ∧ (Source_cached c (host w)
       (path_Join ["modules"; module; version; "source.json"]) = None →
     snd (Client_Source c ctx w module version)
       = snd (Client_Source (without_cache c) ctx w module version)
     ∧ sent (fst (Client_Source c ctx w module version))
       = sent (fst (Client_Source (without_cache c) ctx w module version)))
  ∧ (cache_hit c (host w)
       (path_Join ["modules"; module; version; "MODULE.bazel"]) false = None →
     snd (Client_ModuleFile c ctx w module version)
       = snd (Client_ModuleFile (without_cache c) ctx w module version)
     ∧ sent (fst (Client_ModuleFile c ctx w module version))
       = sent (fst (Client_ModuleFile (without_cache c) ctx w module version)))
  ∧ (∀ key data e, cache_hit c (host w) key true = Some data →
       json_Unmarshal_Metadata data = inl e →
       Metadata_cached c (host w) key = None)
  ∧ (∀ key data e, cache_hit c (host w) key false = Some data →
       json_Unmarshal_Source data = inl e →
       Source_cached c (host w) key = None).
Proof.
  split; [|split; [|split; [|split]]].
  - set (key := path_Join ["modules"; module; "metadata.json"]). intros Hmiss.
    unfold Client_Metadata. fold key.
    fold (Metadata_cached c (host w) key). rewrite Hmiss.
    cbn [cache_hit without_cache c_cache].
    change (fetch (without_cache c) ctx w key module "")
      with (fetch c ctx w key module "").
    destruct (fetch c ctx w key module "") as [w1 [err|data]];
      [split; reflexivity|].
    destruct (json_Unmarshal_Metadata data); [split; reflexivity|].
    cbn [snd fst]. split; [reflexivity|]. rewrite !cache_store_sent. reflexivity.
  - set (key := path_Join ["modules"; module; version; "source.json"]).
    intros Hmiss. unfold Client_Source. fold key.
    fold (Source_cached c (host w) key). rewrite Hmiss.
    cbn [cache_hit without_cache c_cache].
    change (fetch (without_cache c) ctx w key module version)
      with (fetch c ctx w key module version).
    destruct (fetch c ctx w key module version) as [w1 [err|data]];
      [split; reflexivity|].
    destruct (json_Unmarshal_Source data); [split; reflexivity|].
    cbn [snd fst]. split; [reflexivity|]. rewrite !cache_store_sent. reflexivity.
  - set (key := path_Join ["modules"; module; version; "MODULE.bazel"]).
    intros Hmiss. unfold Client_ModuleFile. fold key. rewrite Hmiss.
    cbn [cache_hit without_cache c_cache].
    change (fetch (without_cache c) ctx w key module version)
      with (fetch c ctx w key module version).
    destruct (fetch c ctx w key module version) as [w1 [err|data]];
      [split; reflexivity|].
    cbn [snd fst]. split; [reflexivity|]. rewrite !cache_store_sent. reflexivity.
  - intros key data e Hhit Hjs. unfold Metadata_cached. rewrite Hhit, Hjs.
    reflexivity.
  - intros key data e Hhit Hjs. unfold Source_cached. rewrite Hhit, Hjs.
    reflexivity.
Qed.

(** X15: on a cache miss (no entry, a stale metadata entry, or an entry
    that does not decode) the calls of a caching client return what the same
    client without cache returns, and send the same requests; in particular
    an entry that does not decode is never returned and never reported as an
    error. *)
Theorem cache_miss_transparent (c : Client) ctx (w : World H) module version :
  (Metadata_cached c (host w) (path_Join ["modules"; module; "metadata.json"])
     = None →
   snd (Client_Metadata c ctx w module)
     = snd (Client_Metadata (without_cache c) ctx w module)
   ∧ sent (fst (Client_Metadata c ctx w module))
     = sent (fst (Client_Metadata (without_cache c) ctx w module)))
  ∧ (Source_cached c (host w)
       (path_Join ["modules"; module; version; "source.json"]) = None →
     snd (Client_Source c ctx w module version)
       = snd (Client_Source (without_cache c) ctx w module version)
     ∧ sent (fst (Client_Source c ctx w module version))
       = sent (fst (Client_Source (without_cache c) ctx w module version)))
  ∧ (cache_hit c (host w)
       (path_Join ["modules"; module; version; "MODULE.bazel"]) false = None →
     snd (Client_ModuleFile c ctx w module version)
       = snd (Client_ModuleFile (without_cache c) ctx w module version)
     ∧ sent (fst (Client_ModuleFile c ctx w module version))
       = sent (fst (Client_ModuleFile (without_cache c) ctx w module version)))
  ∧ (∀ key data e, cache_hit c (host w) key true = Some data →
       json_Unmarshal_Metadata data = inl e →
       Metadata_cached c (host w) key = None)
  ∧ (∀ key data e, cache_hit c (host w) key false = Some data →
       json_Unmarshal_Source data = inl e →
       Source_cached c (host w) key = None)
  ∧ (∀ ca key e, c_cache c = Some ca →
       os_Stat (host w) (cache_path ca key) = inl e →
       Metadata_cached c (host w) key = None
       ∧ Source_cached c (host w) key = None
       ∧ cache_hit c (host w) key false = None)
  ∧ (∀ ca key info, c_cache c = Some ca →
       os_Stat (host w) (cache_path ca key) = inr info →
       ttl ca < time_Since (host w) (ModTime info) →
       Metadata_cached c (host w) key = None).
Proof.
  destruct (cache_miss_transparent_core c ctx w module version)
    as (H1 & H2 & H3 & H4 & H5).
  split; [exact H1|]. split; [exact H2|]. split; [exact H3|].
  split; [exact H4|]. split; [exact H5|]. split.
  - intros ca key e Hc Hst. unfold Metadata_cached, Source_cached, cache_hit.
    rewrite Hc, !(cache_get_absent ca (host w) key _ e Hst). repeat split.
  - intros ca key info Hc Hst Hage. unfold Metadata_cached, cache_hit.
    rewrite Hc, (cache_get_stale ca (host w) key info Hst Hage). reflexivity.
Qed.

End ClientSequence.

(** The stale entry for [m]: the caching client answers as the client
    without cache. *)
Lemma cache_miss_transparent_witness :
  let w := mkWorld Scenario.old_cache [] in
  snd (Client_Metadata (HostOps := Scenario.ops) Scenario.client
         context_Background w "m")
  = snd (Client_Metadata (HostOps := Scenario.ops)
           (without_cache Scenario.client) context_Background w "m").
Proof.
  intros w.
  apply (proj1 (cache_miss_transparent (HostOps := Scenario.ops)
                  Scenario.client context_Background w "m" "")).
  vm_compute. reflexivity.
Defined.

(** A module that is not in the registry. *)
Lemma Client_Exists_outcomes_witness :
  let w := mkWorld Scenario.empty_cache [] in
  snd (Client_Exists (HostOps := Scenario.ops) Scenario.client
         context_Background w "absent") = inr false.
Proof.
  intros w.
  set (call := Client_Exists (HostOps := Scenario.ops) Scenario.client
                 context_Background w "absent").
  destruct (Client_Exists_outcomes (HostOps := Scenario.ops) Scenario.client
              context_Background w (fst call) "absent" (snd call)
              (surjective_pairing call)) as (rm & Hm & _ & Hfalse & _).
  apply Hfalse.
  exists (NotFoundErr {| NF_Module := "absent"; NF_Version := "";
                         NF_StatusCode := 404 |}).
  split; [|reflexivity].
  assert (Hrm : snd (Client_Metadata (HostOps := Scenario.ops) Scenario.client
                       context_Background w "absent") = rm)
    by (rewrite Hm; reflexivity).
  rewrite <- Hrm. vm_compute. reflexivity.
Defined.

(** No version of a module that is not in the registry exists. *)
Lemma Client_VersionExists_outcomes_witness :
  let w := mkWorld Scenario.empty_cache [] in
  snd (Client_VersionExists (HostOps := Scenario.ops) Scenario.client
         context_Background w "absent" "1.0.0") = inr false.
Proof.
  intros w.
  set (call := Client_VersionExists (HostOps := Scenario.ops) Scenario.client
                 context_Background w "absent" "1.0.0").
  apply (proj1 (proj2
    (Client_VersionExists_outcomes (HostOps := Scenario.ops) Scenario.client
       context_Background w (fst call) "absent" "1.0.0" (snd call)
       (surjective_pairing call)))).
  exists (NotFoundErr {| NF_Module := "absent"; NF_Version := "";
                         NF_StatusCode := 404 |}).
  split; [vm_compute; reflexivity | reflexivity].
Defined.

(** The server fault on [boom] is the metadata call's error, passed on by
    [Client.Latest]. *)
Lemma Client_Latest_outcomes_witness :
  let w := mkWorld Scenario.empty_cache [] in
  let call := Client_Latest (HostOps := Scenario.ops) Scenario.client
                context_Background w "boom" in
  let err := RequestErr "https://registry.test/modules/boom/metadata.json"
                        500 None in
  Client_Metadata (HostOps := Scenario.ops) Scenario.client
    context_Background w "boom" = (fst call, inl err)
  ∨ ∃ meta, Client_Metadata (HostOps := Scenario.ops) Scenario.client
              context_Background w "boom" = (fst call, inr meta)
            ∧ Latest (Some meta) = ""
            ∧ err = NotFoundErr {| NF_Module := "boom"; NF_Version := "";
                                   NF_StatusCode := 0 |}.
Proof.
  intros w call err.
  apply (proj2 (Client_Latest_outcomes (HostOps := Scenario.ops)
           Scenario.client context_Background w (fst call) "boom" (snd call)
           (surjective_pairing call)) err).
  vm_compute. reflexivity.
Defined.

(** ** Local-tree backend and errors *)

(** X16: [errors.Is(err, ErrNotFound)] and [isNotFound] agree on every
    error made of the package's sentinels and structs, wrappers with a
    single-error [Unwrap] and leaves; no such error matches both
    [ErrNotFound] and [ErrListingNotSupported], and the
    [ErrListingNotSupported] sentinel itself is not a not-found error. *)
Theorem not_found_and_listing_exclusive (e : error) :
  errors_Is e var_ErrNotFound = isNotFound (Some e)
  ∧ (errors_Is e var_ErrListingNotSupported = true → isNotFound (Some e) = false)
  ∧ errors_Is ErrListingNotSupported var_ErrListingNotSupported = true
  ∧ isNotFound (Some ErrListingNotSupported) = false.
Proof.
  split; [|split; [|split; reflexivity]].
  - induction e as [ v | nf | u s | u s inner IH | f inner IH | msg ]
      using error_chain_ind;
      cbn [isNotFound isNotFound_nonnil errors_Is same_error NotFoundError_Is orb].
    + destruct v; reflexivity.
    + reflexivity.
    + reflexivity.
    + exact IH.
    + exact IH.
    + reflexivity.
  - induction e as [ v | nf | u s | u s inner IH | f inner IH | msg ]
      using error_chain_ind;
      cbn [isNotFound isNotFound_nonnil errors_Is same_error NotFoundError_Is orb].
    + destruct v; [discriminate | reflexivity].
    + discriminate.
    + reflexivity.
    + exact IH.
    + exact IH.
    + reflexivity.
Qed.

(** A wrapped listing error is not a not-found error. *)
Lemma not_found_and_listing_exclusive_witness :
  isNotFound (Some (WrapErr "list: %w" ErrListingNotSupported)) = false.
Proof.
  apply (proj1 (proj2 (not_found_and_listing_exclusive
                         (WrapErr "list: %w" ErrListingNotSupported)))).
  reflexivity.
Defined.

(** X17: a registry printed by [String] reads back through
    [NewFileRegistryFromURL] as the same registry, whatever its root. *)
Theorem FileRegistry_String_round_trip (r : FileRegistry) :
  NewFileRegistryFromURL (FileRegistry_String r) = Some r.
Proof.
  destruct r as [rt]. unfold FileRegistry_String, NewFileRegistryFromURL.
  cbn [root]. unfold strings_TrimPrefix.
  rewrite (HasPrefix_true _ "file://" rt) by reflexivity. reflexivity.
Qed.

Section FileReads.
Context {H : Type} {HostOps : Host H}.

(** X18: with a cancelled context every operation of the file registry
    returns the context's error whatever the files are, and that error is
    neither a not-found error nor [ErrListingNotSupported]. *)
Theorem FileRegistry_cancelled (r : FileRegistry) (ctx : Context) (h : H)
    (module version : string) (e : foreign) :
  ctx_Err ctx = Some e →
  FileRegistry_Metadata r ctx h module = inl (of_foreign e)
  ∧ FileRegistry_Source r ctx h module version = inl (of_foreign e)
  ∧ FileRegistry_ModuleFile r ctx h module version = inl (of_foreign e)
  ∧ ListModules r ctx h = inl (of_foreign e)
  ∧ isNotFound (Some (of_foreign e)) = false
  ∧ errors_Is (of_foreign e) var_ErrListingNotSupported = false.
Proof.
  intros Hc.
  unfold FileRegistry_Metadata, FileRegistry_Source, FileRegistry_ModuleFile,
    ListModules.
  rewrite Hc. repeat split.
  - apply isNotFound_of_foreign.
  - apply errors_Is_of_foreign.
Qed.

(** X19: with a live context, each read of the file registry fails with a
    not-found error exactly when [os.ReadFile] fails with an error for which
    [os.IsNotExist] holds, and the error is then the [*NotFoundError] with
    the module (and version) asked for and no status code; [ModuleFile]
    succeeds exactly when the file can be read, with the file's bytes
    unchanged. *)
Theorem FileRegistry_not_found (r : FileRegistry) (ctx : Context) (h : H)
    (module version : string) :
  ctx_Err ctx = None →
  let missing p := ∃ e, os_ReadFile h p = inl e ∧ os_IsNotExist e = true in
  let nf v := NotFoundErr {| NF_Module := module; NF_Version := v;
                             NF_StatusCode := 0 |} in
  (isNotFound (error_of (FileRegistry_Metadata r ctx h module)) = true ↔
     missing (filepath_Join [root r; "modules"; module; "metadata.json"]))
  ∧ (isNotFound (error_of (FileRegistry_Metadata r ctx h module)) = true →
       FileRegistry_Metadata r ctx h module = inl (nf ""))
  ∧ (isNotFound (error_of (FileRegistry_Source r ctx h module version)) = true ↔
       missing (filepath_Join [root r; "modules"; module; version; "source.json"]))
  ∧ (isNotFound (error_of (FileRegistry_Source r ctx h module version)) = true →
       FileRegistry_Source r ctx h module version = inl (nf version))
  ∧ (isNotFound (error_of (FileRegistry_ModuleFile r ctx h module version)) = true ↔
       missing (filepath_Join [root r; "modules"; module; version; "MODULE.bazel"]))
  ∧ (isNotFound (error_of (FileRegistry_ModuleFile r ctx h module version)) = true →
       FileRegistry_ModuleFile r ctx h module version = inl (nf version))
  ∧ (∀ data, FileRegistry_ModuleFile r ctx h module version = inr data ↔
       os_ReadFile h (filepath_Join
                        [root r; "modules"; module; version; "MODULE.bazel"])
       = inr data).
Proof.
  intros Hlive missing nf.
  unfold FileRegistry_Metadata, FileRegistry_Source, FileRegistry_ModuleFile.
  rewrite Hlive. cbv zeta. unfold missing.
  assert (Hwrap : ∀ f x, isNotFound (Some (WrapErr f (of_foreign x))) = false)
    by (intros f x; exact (isNotFound_of_foreign x)).
  split; [|split; [|split; [|split; [|split; [|split]]]]].
  - destruct (os_ReadFile h _) as [e|data] eqn:Hrd.
    + destruct (os_IsNotExist e) eqn:Hne; cbn [error_of].
      * split; [intros _; eauto | reflexivity].
      * rewrite Hwrap. split; [discriminate|].
        intros (e' & [= <-] & He). congruence.
    + destruct (json_Unmarshal_Metadata data); cbn [error_of];
        [rewrite Hwrap|]; (split; [discriminate | intros (e' & [=] & _)]).
  - destruct (os_ReadFile h _) as [e|data] eqn:Hrd.
    + destruct (os_IsNotExist e) eqn:Hne; cbn [error_of]; [reflexivity|].
      rewrite Hwrap. discriminate.
    + destruct (json_Unmarshal_Metadata data); cbn [error_of];
        [rewrite Hwrap|]; discriminate.
  - destruct (os_ReadFile h _) as [e|data] eqn:Hrd.
    + destruct (os_IsNotExist e) eqn:Hne; cbn [error_of].
      * split; [intros _; eauto | reflexivity].
      * rewrite Hwrap. split; [discriminate|].
        intros (e' & [= <-] & He). congruence.
    + destruct (json_Unmarshal_Source data); cbn [error_of];
        [rewrite Hwrap|]; (split; [discriminate | intros (e' & [=] & _)]).
  - destruct (os_ReadFile h _) as [e|data] eqn:Hrd.
    + destruct (os_IsNotExist e) eqn:Hne; cbn [error_of]; [reflexivity|].
      rewrite Hwrap. discriminate.
    + destruct (json_Unmarshal_Source data); cbn [error_of];
        [rewrite Hwrap|]; discriminate.
  - destruct (os_ReadFile h _) as [e|data] eqn:Hrd.
    + destruct (os_IsNotExist e) eqn:Hne; cbn [error_of].
      * split; [intros _; eauto | reflexivity].
      * rewrite Hwrap. split; [discriminate|].
        intros (e' & [= <-] & He). congruence.
    + cbn [error_of]. split; [discriminate | intros (e' & [=] & _)].
  - destruct (os_ReadFile h _) as [e|data] eqn:Hrd.
    + destruct (os_IsNotExist e) eqn:Hne; cbn [error_of]; [reflexivity|].
      rewrite Hwrap. discriminate.
    + discriminate.
  - intros data. destruct (os_ReadFile h _) as [e|data0] eqn:Hrd.
    + destruct (os_IsNotExist e); split; discriminate.
    + split; intros [= <-]; reflexivity.
Qed.

(** X20: on a host where [filepath.Join] joins in steps and a file that can
    be stat'ed does not fail to open as missing, every name returned by
    [ListModules] is a module whose [Metadata] call does not fail with a
    not-found error. *)
Theorem listed_module_is_found (r : FileRegistry) (ctx : Context) (h : H)
    (names : list string) (name : string) :
  filepath_Join [filepath_Join [root r; "modules"]; name; "metadata.json"]
    = filepath_Join [root r; "modules"; name; "metadata.json"] →
  (∀ p info e, os_Stat h p = inr info → os_ReadFile h p = inl e →
               os_IsNotExist e = false) →
  ListModules r ctx h = inr names →
  In name names →
  isNotFound (error_of (FileRegistry_Metadata r ctx h name)) = false.
Proof.
  intros Hjoin Hlaw Hlist Hin. unfold ListModules in Hlist.
  unfold FileRegistry_Metadata.
  destruct (ctx_Err ctx); [discriminate|]. cbv zeta in *.
  destruct (os_ReadDir h _) as [e|entries].
  { destruct (os_IsNotExist e); discriminate. }
  injection Hlist as <-. rewrite range_entries_filter in Hin.
  apply in_map_iff in Hin as (entry & Hname & Hentry).
  apply filter_In in Hentry as [_ Hmod]. unfold is_module in Hmod.
  apply andb_true_iff in Hmod as [_ Hst]. rewrite Hname, Hjoin in Hst.
  destruct (os_Stat h _) as [|info] eqn:Hstat; [discriminate|].
  destruct (os_ReadFile h _) as [e|data] eqn:Hrd.
  - rewrite (Hlaw _ info e Hstat Hrd). exact (isNotFound_of_foreign _).
  - destruct (json_Unmarshal_Metadata data) as [e|meta]; [|reflexivity].
    exact (isNotFound_of_foreign e).
Qed.

End FileReads.

(** The file registry on the mirror of the scenarios, with a cancelled
    context. *)
Lemma FileRegistry_cancelled_witness :
  ListModules (HostOps := Scenario.ops) (NewFileRegistry "/r")
    {| ctx_Err := Some (FLeaf "context canceled") |} Scenario.mirror
  = inl (LeafErr "context canceled").
Proof.
  apply (FileRegistry_cancelled (HostOps := Scenario.ops) (NewFileRegistry "/r")
           {| ctx_Err := Some (FLeaf "context canceled") |} Scenario.mirror
           "b" "1.0.0" (FLeaf "context canceled") eq_refl).
Defined.

(** Module [a] of the mirror has no metadata file. *)
Lemma FileRegistry_not_found_witness :
  FileRegistry_Metadata (HostOps := Scenario.ops) (NewFileRegistry "/r")
    context_Background Scenario.mirror "a"
  = inl (NotFoundErr {| NF_Module := "a"; NF_Version := ""; NF_StatusCode := 0 |}).
Proof.
  apply (proj1 (proj2 (FileRegistry_not_found (HostOps := Scenario.ops)
                  (NewFileRegistry "/r") context_Background Scenario.mirror
                  "a" "1.0.0" eq_refl))).
  vm_compute. reflexivity.
Defined.

(** Module [b] of the mirror is listed and its metadata is found. *)
Lemma listed_module_is_found_witness :
  isNotFound (error_of (FileRegistry_Metadata (HostOps := Scenario.ops)
                          (NewFileRegistry "/r") context_Background
                          Scenario.mirror "b")) = false.
Proof.
  apply (listed_module_is_found (HostOps := Scenario.ops) (NewFileRegistry "/r")
           context_Background Scenario.mirror ["b"] "b").
  - vm_compute. reflexivity.
  - intros p info e Hst Hrd. cbn in Hst, Hrd.
    unfold MemHost.stat in Hst. unfold MemHost.read_file in Hrd.
    destruct (MemHost.blocked Scenario.mirror p); [discriminate Hst|].
    destruct (MemHost.files Scenario.mirror !! p) as [[data t|t]|];
      [discriminate Hrd | | discriminate Hst].
    injection Hrd as <-. reflexivity.
  - vm_compute. reflexivity.
  - left. reflexivity.
Defined.

(** ** Yanking, source types and repeated calls *)

Lemma IsYanked_with_yank (m : Metadata) (v reason u : string) :
  IsYanked (Some (with_yank m v reason)) u
  = if String.eqb u v then true else IsYanked (Some m) u.
Proof.
  cbn [IsYanked with_yank YankedVersions].
  destruct (String.eqb u v) eqn:Huv.
  - apply String.eqb_eq in Huv. subst u. rewrite lookup_insert_eq. reflexivity.
  - apply String.eqb_neq in Huv. rewrite lookup_insert_ne by congruence.
    destruct (YankedVersions m) as [yv|]; cbn [default]; [reflexivity|].
    rewrite lookup_empty. reflexivity.
Qed.

Lemma Latest_with_yank (m : Metadata) (v reason : string) :
  Latest (Some (with_yank m v reason)) =
  match for_down (λ x, if negb (IsYanked (Some (with_yank m v reason)) x)
                       then Some x else None)
                 (Versions m) (length (Versions m)) with
  | Some r => r
  | None => ""
  end.
Proof. rewrite Latest_unfold. reflexivity. Qed.

(** X21: after a version [v] is yanked, [IsYanked] holds of it with the
    given reason and the yank state of every other version is unchanged;
    [Latest] moves only if it was [v]: when [Latest] was another version it
    stays the same, and a non-empty [v] is never returned by [Latest]
    afterwards. *)
Theorem yank_moves_Latest (m : Metadata) (v reason : string) :
  IsYanked (Some (with_yank m v reason)) v = true
  ∧ YankReason (Some (with_yank m v reason)) v = reason
  ∧ (∀ u, u ≠ v →
       IsYanked (Some (with_yank m v reason)) u = IsYanked (Some m) u)
  ∧ (Latest (Some m) ≠ v →
       Latest (Some (with_yank m v reason)) = Latest (Some m))
  ∧ (v ≠ "" → Latest (Some (with_yank m v reason)) ≠ v).
Proof.
  assert (Hself : IsYanked (Some (with_yank m v reason)) v = true).
  { rewrite IsYanked_with_yank, String.eqb_refl. reflexivity. }
  assert (Hother : ∀ u, u ≠ v →
            IsYanked (Some (with_yank m v reason)) u = IsYanked (Some m) u).
  { intros u Hu. rewrite IsYanked_with_yank.
    apply String.eqb_neq in Hu. rewrite Hu. reflexivity. }
  assert (Hmono : ∀ u, IsYanked (Some m) u = true →
            IsYanked (Some (with_yank m v reason)) u = true).
  { intros u Hu. rewrite IsYanked_with_yank, Hu.
    destruct (String.eqb u v); reflexivity. }
  split; [exact Hself|]. split.
  { cbn [YankReason with_yank YankedVersions]. rewrite lookup_insert_eq.
    reflexivity. }
  split; [exact Hother|]. split.
  - rewrite Latest_with_yank, Latest_unfold.
    destruct (scan_not_yanked (Some m) (Versions m))
      as [(u & (l1 & l2 & Heq & Hlive & Hrest) & Hres) | [Hall Hres]];
      cbv zeta in Hres; rewrite Hres.
    + intros Hne. rewrite Heq at 1 2.
      rewrite (for_down_found _ l1 l2 u u); [reflexivity| |].
      * rewrite (Hother u Hne). cbv beta in Hlive. rewrite Hlive. reflexivity.
      * eapply Forall_impl; [exact Hrest|]. intros x Hx. cbv beta in Hx.
        destruct (IsYanked (Some m) x) eqn:Hy; [|contradiction Hx; reflexivity].
        rewrite (Hmono x Hy). reflexivity.
    + intros _. rewrite for_down_none; [reflexivity|].
      eapply Forall_impl; [exact Hall|]. intros x Hx. cbv beta in Hx.
      rewrite (Hmono x Hx). reflexivity.
  - intros Hv Heq. rewrite Latest_unfold in Heq.
    destruct (scan_not_yanked (Some (with_yank m v reason))
                (Versions (with_yank m v reason)))
      as [(u & Hu & Hres) | [_ Hres]]; cbv zeta in Hres; rewrite Hres in Heq.
    + subst u. apply last_such_elem in Hu as [_ Hlive]. cbv beta in Hlive.
      congruence.
    + congruence.
Qed.

(** Scenario A of the specification read as a yank of the newest version. *)
Lemma yank_moves_Latest_witness :
  let m := {| Versions := ["1.0.0"; "1.1.0"; "2.0.0"]; YankedVersions := None;
              Maintainers := []; Homepage := ""; Repository := [] |} in
  Latest (Some (with_yank m "2.0.0" "broken")) ≠ "2.0.0"
  ∧ Latest (Some (with_yank m "1.0.0" "old")) = Latest (Some m).
Proof.
  intros m. split.
  - apply (proj2 (proj2 (proj2 (proj2 (yank_moves_Latest m "2.0.0" "broken"))))).
    discriminate.
  - apply (proj1 (proj2 (proj2 (proj2 (yank_moves_Latest m "1.0.0" "old"))))).
    vm_compute. discriminate.
Defined.

(** X22: [SourceType] never returns the empty string: it is "archive" for
    a nil Source and for an empty [Type], and the [Type] itself otherwise; so
    it is "archive" exactly when the Source is nil or its [Type] is empty or
    "archive". *)
Theorem SourceType_never_empty (s : option Source) :
  SourceType s ≠ ""
  ∧ (SourceType s = "archive" ↔
       s = None ∨ ∃ src, s = Some src ∧ (Type_ src = "" ∨ Type_ src = "archive"))
  ∧ (∀ src, s = Some src → Type_ src ≠ "" → SourceType s = Type_ src).
Proof.
  destruct s as [src|]; cbn [SourceType].
  - destruct (String.eqb (Type_ src) "") eqn:Ht.
    + apply String.eqb_eq in Ht. split; [discriminate|]. split.
      * split; [|reflexivity]. intros _. right. exists src. auto.
      * intros src' [= <-] Hne. contradiction.
    + apply String.eqb_neq in Ht. split; [exact Ht|]. split.
      * split.
        -- intros Ha. right. exists src. auto.
        -- intros [Hn | (src' & [= <-] & [He | Ha])];
             [discriminate | contradiction | exact Ha].
      * intros src' [= <-] _. reflexivity.
  - split; [discriminate|]. split.
    + split; [auto | reflexivity].
    + intros src [=].
Qed.

Section Repeated.
Context {H : Type} {HostOps : Host H}.

(** X23: a metadata call that misses the cache, fetches and decodes stores
    the fetched bytes; if the host then shows that entry (the write took
    effect) and it is within the time-to-live, a second call returns the same
    Metadata without sending a request or changing the world.  The same holds
    for [ModuleFile] at any age of the entry: the second call returns the
    bytes of the first. *)
Theorem second_call_served_from_cache (c : Client) (ca : cache) ctx
    (w w0 : World H) module version data :
  c_cache c = Some ca →
  (∀ meta info,
     let key := path_Join ["modules"; module; "metadata.json"] in
     let w1 := cache_store c w0 key data in
     Metadata_cached c (host w) key = None →
     fetch c ctx w key module "" = (w0, inr data) →
     json_Unmarshal_Metadata data = inr meta →
     os_Stat (host w1) (cache_path ca key) = inr info →
     time_Since (host w1) (ModTime info) ≤ ttl ca →
     os_ReadFile (host w1) (cache_path ca key) = inr data →
     Client_Metadata c ctx w module = (w1, inr meta)
     ∧ Client_Metadata c ctx w1 module = (w1, inr meta)
     ∧ sent w1 = sent w0)
  ∧ (∀ info,
       let key := path_Join ["modules"; module; version; "MODULE.bazel"] in
       let w1 := cache_store c w0 key data in
       cache_hit c (host w) key false = None →
       fetch c ctx w key module version = (w0, inr data) →
       os_Stat (host w1) (cache_path ca key) = inr info →
       os_ReadFile (host w1) (cache_path ca key) = inr data →
       Client_ModuleFile c ctx w module version = (w1, inr data)
       ∧ Client_ModuleFile c ctx w1 module version = (w1, inr data)
       ∧ sent w1 = sent w0).
Proof.
  intros Hc. split.
  - intros meta info key w1 Hmiss Hf Hjs Hst Hage Hrd.
    split; [|split].
    + unfold Client_Metadata. fold key.
      fold (Metadata_cached c (host w) key). rewrite Hmiss, Hf, Hjs. reflexivity.
    + unfold Client_Metadata, cache_hit. fold key. rewrite Hc.
      rewrite (cache_get_fresh _ _ _ _ _ Hst Hage Hrd), Hjs. reflexivity.
    + apply cache_store_sent.
  - intros info key w1 Hmiss Hf Hst Hrd. split; [|split].
    + unfold Client_ModuleFile. fold key. rewrite Hmiss, Hf. reflexivity.
    + unfold Client_ModuleFile, cache_hit. fold key. rewrite Hc.
      rewrite (cache_get_unchecked _ _ _ _ _ Hst Hrd). reflexivity.
    + apply cache_store_sent.
Qed.

End Repeated.

(** Two metadata calls for [m] on an empty cache: the second sends nothing. *)
Lemma second_call_served_from_cache_witness :
  let w := mkWorld Scenario.empty_cache [] in
  let first := Client_Metadata (HostOps := Scenario.ops) Scenario.client
                 context_Background w "m" in
  Client_Metadata (HostOps := Scenario.ops) Scenario.client
    context_Background (fst first) "m" = (fst first, inr empty_Metadata)
  ∧ length (sent (fst first)) = 1%nat.
Proof.
  intros w first.
  destruct (proj1 (second_call_served_from_cache (HostOps := Scenario.ops)
              Scenario.client (newCache "/cache" 0) context_Background w
              (fst (fetch (HostOps := Scenario.ops) Scenario.client
                      context_Background w "modules/m/metadata.json" "m" ""))
              "m" "" "{}" eq_refl)
              empty_Metadata {| ModTime := 0 |})
    as (Hfirst & Hsecond & _).
  - vm_compute. reflexivity.
  - vm_compute. reflexivity.
  - vm_compute. reflexivity.
  - vm_compute. reflexivity.
  - vm_compute. discriminate.
  - vm_compute. reflexivity.
  - split; [|vm_compute; reflexivity].
    cbv zeta in Hfirst, Hsecond. unfold first. rewrite Hfirst. exact Hsecond.
Defined.
